(** * omnizm command-line tool: the component installation pipeline

    A shallow embedding of the two command-line front ends of the
    repository,

    - [src/cli/cli.ts] (module [CliTs], interactive [add] only), and
    - the second CLI source that also accepts [add <component-name ...>]
      (module [DirectCli], functions [installComponents] and [add]),

    together with the helpers both share word for word ([exists],
    [listAvailableComponents], [readComponentFromUI],
    [detectPackageManager]) or up to the messages printed ([init],
    [installDependencies]), and the two loops of [add] that
    [installComponents] repeats.

    Modelling decisions.
    - Strings are [string]; [toLowerCase] lowers the ASCII letters only.
      The program compares the lowered name with ['button'] only, and no
      non-ASCII character lowers to one of b, u, t, o, n.
    - A path is the list of its segments below [process.cwd()]; component
      names reaching a file operation are stems of directory entries and
      hold no separator, so [path.join] never has to normalise.
    - The file system maps paths to files (their text, as
      [readFile (_, 'utf-8')] returns it and [writeFile] stores it) and
      directories. Module [Disk] refines the reader and the copy stage to
      files held as bytes, with the UTF-8 decoding of
      [readFile (_, 'utf-8')] made explicit.
    - An async function is a state transformer over the [World] (file
      system and the trace of observable effects) whose outcome is a
      value, a thrown [Error] (its message) or [process.exit (code)].
    - [picocolors] functions are the identity on the text. *)

From Stdlib Require Import ZArith Ascii String.
From stdpp Require Import base option list strings gmap fin_maps.

Local Open Scope string_scope.
Local Open Scope list_scope.

(* ===================================================================== *)
(** ** JavaScript string operations used by the program *)
(* ===================================================================== *)

Definition ascii_toLower (c : ascii) : ascii :=
  let n := nat_of_ascii c in
  if Nat.leb 65 n && Nat.leb n 90 then ascii_of_nat (n + 32) else c.

(** [String.prototype.toLowerCase] *)
Fixpoint toLowerCase (s : string) : string :=
  match s with
  | EmptyString => EmptyString
  | String c r => String (ascii_toLower c) (toLowerCase r)
  end.

(** [String.prototype.startsWith] *)
Fixpoint startsWith (s pat : string) : bool :=
  match pat, s with
  | EmptyString, _ => true
  | String _ _, EmptyString => false
  | String p pat', String c s' => Ascii.eqb p c && startsWith s' pat'
  end.

Fixpoint drop_chars (n : nat) (s : string) : string :=
  match n, s with
  | O, _ => s
  | S n', String _ s' => drop_chars n' s'
  | S _, EmptyString => EmptyString
  end.

(** [String.prototype.endsWith] *)
Definition endsWith (s suffix : string) : bool :=
  Nat.leb (String.length suffix) (String.length s)
  && String.eqb (drop_chars (String.length s - String.length suffix) s) suffix.

(** [String.prototype.replace] with a string pattern: the first occurrence
    only. *)
Fixpoint replace (s pat rep : string) : string :=
  if startsWith s pat then rep +:+ drop_chars (String.length pat) s
  else match s with
       | EmptyString => EmptyString
       | String c s' => String c (replace s' pat rep)
       end.

(** [Array.prototype.join] *)
Fixpoint join (sep : string) (l : list string) : string :=
  match l with
  | [] => ""
  | [x] => x
  | x :: r => x +:+ sep +:+ join sep r
  end.

(** [Array.prototype.includes] on strings *)
Definition includes (l : list string) (x : string) : bool :=
  existsb (String.eqb x) l.

(** A JavaScript [Set<string>] keeps its elements in insertion order and
    [add] ignores an element already present. *)
Definition set_add (x : string) (s : list string) : list string :=
  if includes s x then s else s ++ [x].

(* ===================================================================== *)
(** ** The world: file system and observable effects *)
(* ===================================================================== *)

Abbreviation path := (list string).

Inductive node : Type :=
| File (content : string)
| Dir.

Inductive stdio : Type := Inherit | Pipe.

Inductive event : Type :=
| EIntro (msg : string)
| EOutro (msg : string)
| ECancel (msg : string)
| ELog (msg : string)
| ESpinStart (msg : string)
| ESpinMessage (msg : string)
| ESpinStop (msg : string)
| EMkdir (p : path)
| EWriteFile (p : path) (content : string)
| EExec (command : string) (io : stdio).

Record World : Type := mkWorld {
  fs : gmap (list string) node;
  trace : list event
}.

Inductive outcome (A : Type) : Type :=
| Ret (a : A)
| Throw (message : string)
| Exit (code : Z).
Arguments Ret {A} a.
Arguments Throw {A} message.
Arguments Exit {A} code.

Definition M (A : Type) : Type := World → outcome A * World.

Definition ret {A} (a : A) : M A := λ w, (Ret a, w).
Definition throw {A} (message : string) : M A := λ w, (Throw message, w).
(** [process.exit (code)]: nothing after it runs, no handler sees it. *)
Definition exit {A} (code : Z) : M A := λ w, (Exit code, w).

Definition bind {A B} (m : M A) (k : A → M B) : M B := λ w,
  match m w with
  | (Ret a, w') => k a w'
  | (Throw e, w') => (Throw e, w')
  | (Exit c, w') => (Exit c, w')
  end.

(** [try { m } catch (error) { h error.message }] *)
Definition try_catch {A} (m : M A) (h : string → M A) : M A := λ w,
  match m w with
  | (Throw e, w') => h e w'
  | r => r
  end.

Declare Scope prog_scope.
Delimit Scope prog_scope with prog.
Notation "'let*' x ':=' m 'in' k" := (bind m (λ x, k))
  (at level 10, x pattern, m at level 100, k at level 200) : prog_scope.
Notation "m '>>' k" := (bind m (λ _, k))
  (at level 100, k at level 200, right associativity) : prog_scope.
Local Open Scope prog_scope.

Definition emit (e : event) : M unit := λ w,
  (Ret tt, mkWorld (fs w) (trace w ++ [e])).

(** [for (const x of l) body x] *)
Fixpoint for_of {A} (l : list A) (body : A → M unit) : M unit :=
  match l with
  | [] => ret tt
  | x :: r => body x >> for_of r body
  end.

(** *** [fs/promises] *)

Definition readFile (p : path) : M string := λ w,
  match fs w !! p with
  | Some (File c) => (Ret c, w)
  | Some Dir => (Throw "EISDIR: illegal operation on a directory, read", w)
  | None => (Throw "ENOENT: no such file or directory", w)
  end.

(** The directory a path lies in exists: the working directory itself, or
    a [Dir] node. *)
Definition parent_is_dir (m : gmap (list string) node) (p : path) : bool :=
  match removelast p with
  | [] => true
  | d => match m !! d with Some Dir => true | _ => false end
  end.

Definition writeFile (p : path) (content : string) : M unit := λ w,
  let w1 := mkWorld (fs w) (trace w ++ [EWriteFile p content]) in
  if parent_is_dir (fs w) p then
    match fs w !! p with
    | Some Dir => (Throw "EISDIR: illegal operation on a directory, open", w1)
    | _ => (Ret tt, mkWorld (<[p := File content]> (fs w)) (trace w1))
    end
  else (Throw "ENOENT: no such file or directory, open", w1).

(** [mkdir (p, { recursive: true })]: every missing ancestor is created;
    a file in the way is an error. *)
Fixpoint mkdir_from (done rest : path) (m : gmap (list string) node)
  : option (gmap (list string) node) :=
  match rest with
  | [] => Some m
  | s :: rest' =>
      let d := done ++ [s] in
      match m !! d with
      | Some (File _) => None
      | _ => mkdir_from d rest' (<[d := Dir]> m)
      end
  end.

Definition mkdir_recursive (p : path) : M unit := λ w,
  let w1 := mkWorld (fs w) (trace w ++ [EMkdir p]) in
  match mkdir_from [] p (fs w) with
  | Some m => (Ret tt, mkWorld m (trace w1))
  | None => (Throw "EEXIST: file already exists, mkdir", w1)
  end.

(** The entries of directory [d]: the last segments of the paths that lie
    directly in it. *)
Definition entry_in (d : path) (p : path) : option string :=
  match reverse p with
  | s :: rd => if decide (reverse rd = d) then Some s else None
  | [] => None
  end.

Definition readdir (d : path) : M (list string) := λ w,
  let listing := omap (λ kv, entry_in d kv.1) (map_to_list (fs w)) in
  match d with
  | [] => (Ret listing, w)
  | _ => match fs w !! d with
         | Some Dir => (Ret listing, w)
         | Some (File _) => (Throw "ENOTDIR: not a directory, scandir", w)
         | None => (Throw "ENOENT: no such file or directory, scandir", w)
         end
  end.

(* ===================================================================== *)
(** ** Helpers shared by both command-line sources *)
(* ===================================================================== *)

Definition nl : string := String (ascii_of_nat 10) EmptyString.

Record ComponentFile : Type := mkComponentFile {
  name : string;
  content : string
}.

Record Component : Type := mkComponent {
  files : list ComponentFile;
  dependencies : list string
}.

Inductive PackageManager : Type := npm | yarn | pnpm.

Definition pm_name (pm : PackageManager) : string :=
  match pm with npm => "npm" | yarn => "yarn" | pnpm => "pnpm" end.

Definition CONFIG_FILE : path := ["components.yml"].

Definition getDefaultConfig (stack : string) : string :=
  "# UI Component Configuration" +:+ nl +:+
  "stack: " +:+ stack +:+ nl +:+
  "style: default" +:+ nl +:+
  "tailwind:" +:+ nl +:+
  "  config: tailwind.config.js" +:+ nl +:+
  "  css: src/styles/globals.css" +:+ nl +:+
  "aliases:" +:+ nl +:+
  "  components: src/components" +:+ nl +:+
  "  utils: src/lib/utils" +:+ nl.

(** [exists]: a path exists when reading it as a file succeeds. *)
Definition exists_ (filepath : path) : M bool :=
  try_catch (readFile filepath >> ret true) (λ _, ret false).

Definition listAvailableComponents : M (list string) :=
  try_catch
    (let* files := readdir ["ui"] in
     ret (map (λ file, replace file ".tsx" "")
              (List.filter (λ file, endsWith file ".tsx") files)))
    (λ _, throw "Unable to read UI components directory").

Definition detectPackageManager : M PackageManager :=
  try_catch
    (let* y := exists_ ["yarn.lock"] in
     if y then ret yarn
     else
       let* p := exists_ ["pnpm-lock.yaml"] in
       if p then ret pnpm else ret npm)
    (λ _, ret npm).

(** The three command templates of [installDependencies]. *)
Definition installCommand (packageManager : PackageManager)
    (dependencies : list string) : string :=
  match packageManager with
  | npm => "npm install --save " +:+ join " " dependencies
  | yarn => "yarn add " +:+ join " " dependencies
  | pnpm => "pnpm add " +:+ join " " dependencies
  end.

(** The directory components are copied to. *)
Definition componentDir : path := ["components"; "ui"].

Section Shared.

(** [process.cwd()], printed in messages only. *)
Variable cwd : string.

(** What the package-manager process does: whether it exits with
    status zero, and the file system it leaves behind. *)
Variable shell :
  string → gmap (list string) node → bool * gmap (list string) node.

(** [path.join (process.cwd(), ...p)] as text; [cwd] is not the root
    directory and has no trailing separator. *)
Definition abs_path (p : path) : string := join "/" (cwd :: p).

(** [execSync (command, { stdio })] *)
Definition execSync (command : string) (io : stdio) : M unit := λ w,
  let '(ok, m) := shell command (fs w) in
  let w' := mkWorld m (trace w ++ [EExec command io]) in
  if ok then (Ret tt, w') else (Throw ("Command failed: " +:+ command), w').

Definition readComponentFromUI (componentName : string) : M Component :=
  try_catch
    (let componentPath := ["ui"; componentName +:+ ".tsx"] in
     let* found := exists_ componentPath in
     if negb found then
       throw ("Component file not found at " +:+ abs_path componentPath)
     else
       let* content := readFile componentPath in
       let dependencies :=
         ["class-variance-authority"; "tailwind-merge"; "clsx"] in
       let dependencies :=
         if String.eqb (toLowerCase componentName) "button"
         then dependencies ++ ["@radix-ui/react-slot"]
         else dependencies in
       ret (mkComponent
              [mkComponentFile (componentName +:+ ".tsx") content]
              dependencies))
    (λ message,
       throw ("Failed to read component " +:+ componentName +:+ ": "
              +:+ message)).

(** [init]; the two sources differ in the closing message only. *)
Definition init_with (closing : string → string)
    (selectedStack : option string) : M unit :=
  emit (EIntro " omnizm - UI Component CLI ") >>
  emit (ELog "Prompting for stack selection...") >>
  match selectedStack with
  | None => emit (ECancel "Operation cancelled") >> exit 1
  | Some stack =>
      emit (ESpinStart "Creating components.yml") >>
      let* created :=
        try_catch
          (let* configExists := exists_ CONFIG_FILE in
           if configExists then
             emit (ESpinStop "components.yml already exists") >> ret false
           else
             writeFile CONFIG_FILE (getDefaultConfig stack) >>
             emit (ESpinStop "Created components.yml") >> ret true)
          (λ _,
             emit (ESpinStop "Failed to create components.yml") >>
             emit (ECancel "An error occurred during initialization") >>
             exit 1) in
      if created then emit (EOutro (closing stack)) else ret tt
  end.

(** First pass of [add] / [installComponents]: the loop that fills
    [allDependencies] and [radixDependencies]. *)
Fixpoint collectDependencies (components : list string)
    (sets : list string * list string) : M (list string * list string) :=
  match components with
  | [] => ret sets
  | componentName :: rest =>
      let* component := readComponentFromUI componentName in
      let allDependencies :=
        fold_left (λ s dep, set_add dep s) (dependencies component) sets.1 in
      let radixDependencies :=
        if String.eqb (toLowerCase componentName) "button"
        then set_add "@radix-ui/react-slot" sets.2
        else sets.2 in
      collectDependencies rest (allDependencies, radixDependencies)
  end.

(** Second pass: the loop that copies the files and fills
    [installedComponents] and [failedComponents]. *)
Fixpoint copyComponentFiles (components : list string)
    (lists : list string * list string) : M (list string * list string) :=
  match components with
  | [] => ret lists
  | componentName :: rest =>
      let* lists' :=
        try_catch
          (let* component := readComponentFromUI componentName in
           for_of (files component)
             (λ file, writeFile (componentDir ++ [name file]) (content file)) >>
           ret (lists.1 ++ [componentName], lists.2))
          (λ message,
             emit (ELog (nl +:+ "Warning: Failed to add " +:+ componentName)) >>
             emit (ELog message) >>
             ret (lists.1, lists.2 ++ [componentName])) in
      copyComponentFiles rest lists'
  end.

(** The summary printed after the copy. *)
Definition showSummary (installedComponents failedComponents
    allDependencies radixDependencies : list string) : M unit :=
  (if Nat.ltb 0 (length installedComponents) then
     emit (ELog (nl +:+ "Successfully installed components:")) >>
     for_of installedComponents (λ comp, emit (ELog ("- " +:+ comp)))
   else ret tt) >>
  (if Nat.ltb 0 (length failedComponents) then
     emit (ELog (nl +:+ "Failed to install components:")) >>
     for_of failedComponents (λ comp, emit (ELog ("- " +:+ comp)))
   else ret tt) >>
  (if Nat.ltb 0 (length allDependencies) then
     emit (ELog (nl +:+ "Installed dependencies:" +:+ " " +:+ nl +:+
                 join nl (map (λ dep, "- " +:+ dep) allDependencies)))
   else ret tt) >>
  (if Nat.ltb 0 (length radixDependencies) then
     emit (ELog (nl +:+ "Installed Radix UI packages:" +:+ " " +:+ nl +:+
                 join nl (map (λ dep, "- " +:+ dep) radixDependencies)))
   else ret tt).

End Shared.

(* ===================================================================== *)
(** ** [src/cli/cli.ts] *)
(* ===================================================================== *)

Module CliTs.
Section Program.

Variable cwd : string.
Variable shell :
  string → gmap (list string) node → bool * gmap (list string) node.

Definition init : option string → M unit :=
  init_with (λ stack,
    "Installation complete! Stack selected: " +:+ stack +:+ nl +:+
    "You can now start adding components with `npx omnizm add`").

Definition installDependencies (dependencies : list string) : M unit :=
  if Nat.eqb (length dependencies) 0 then ret tt
  else
    let* packageManager := detectPackageManager in
    emit (ESpinStart ("Installing dependencies using "
                      +:+ pm_name packageManager +:+ "...")) >>
    let command := installCommand packageManager dependencies in
    try_catch
      (execSync shell command Inherit >>
       emit (ESpinStop "Dependencies installed successfully"))
      (λ _,
         emit (ESpinStop "Failed to install dependencies") >>
         throw ("Failed to install dependencies using "
                +:+ pm_name packageManager)).

(** [add]; [answer] is what the multiselect prompt returns for the
    options shown, [None] when the user cancels. *)
Definition add (answer : list string → option (list string)) : M unit :=
  emit (EIntro " omnizm - Add Components ") >>
  emit (ESpinStart "Loading available components") >>
  try_catch
    (let* components := listAvailableComponents in
     emit (ESpinStop "Components loaded") >>
     (if Nat.eqb (length components) 0 then
        emit (ECancel "No components found in the ui directory") >> exit 1
      else ret tt) >>
     match answer components with
     | None => emit (ECancel "Operation cancelled") >> exit 1
     | Some selectedComponents =>
         mkdir_recursive componentDir >>
         (* First pass: Collect all dependencies *)
         emit (ESpinStart "Analyzing component dependencies") >>
         let* sets := collectDependencies cwd selectedComponents ([], []) in
         let allDependencies := sets.1 in
         let radixDependencies := sets.2 in
         emit (ESpinStop "Dependencies analyzed") >>
         (* Install all dependencies first *)
         (if Nat.ltb 0 (length allDependencies) then
            emit (ESpinStart "Installing shared dependencies") >>
            try_catch
              (installDependencies allDependencies >>
               emit (ESpinStop "Shared dependencies installed"))
              (λ message,
                 emit (ESpinStop "Failed to install shared dependencies") >>
                 emit (ELog (nl +:+ "Warning: Failed to install dependencies")) >>
                 emit (ELog message))
          else ret tt) >>
         (* Install Radix dependencies if needed *)
         (if Nat.ltb 0 (length radixDependencies) then
            emit (ESpinStart "Installing Radix UI dependencies") >>
            try_catch
              (installDependencies radixDependencies >>
               emit (ESpinStop "Radix UI dependencies installed"))
              (λ message,
                 emit (ESpinStop "Failed to install Radix UI dependencies") >>
                 emit (ELog (nl +:+ "Warning: Failed to install Radix UI dependencies")) >>
                 emit (ELog message))
          else ret tt) >>
         (* Second pass: Copy component files *)
         emit (ESpinStart "Copying component files") >>
         let* lists := copyComponentFiles cwd selectedComponents ([], []) in
         emit (ESpinStop "Component files copied") >>
         showSummary lists.1 lists.2 allDependencies radixDependencies >>
         emit (EOutro "Component installation completed successfully!")
     end)
    (λ message,
       emit (ESpinStop "Failed to add components") >>
       emit (ECancel message) >>
       exit 1).

(** The [switch] on [process.argv.slice (2)]. *)
Definition main (args : list string) (selectedStack : option string)
    (answer : list string → option (list string)) : M unit :=
  match args with
  | command :: _ =>
      if String.eqb command "init" then init selectedStack
      else if String.eqb command "add" then add answer
      else emit (ECancel "Unknown command. Use `init` or `add`") >> exit 1
  | [] => emit (ECancel "Unknown command. Use `init` or `add`") >> exit 1
  end.

End Program.
End CliTs.

(* ===================================================================== *)
(** ** The CLI source with direct installation ([add <component-name ...>]) *)
(* ===================================================================== *)

Module DirectCli.
Section Program.

Variable cwd : string.
Variable shell :
  string → gmap (list string) node → bool * gmap (list string) node.

Definition init : option string → M unit :=
  init_with (λ stack,
    "Installation complete! Stack selected: " +:+ stack +:+ nl +:+
    "You can now start adding components with `npx omnizm add` or "
    +:+ "`npx omnizm add <component-name>`").

Definition installDependencies (dependencies : list string) : M unit :=
  if Nat.eqb (length dependencies) 0 then ret tt
  else
    let* packageManager := detectPackageManager in
    let command := installCommand packageManager dependencies in
    try_catch
      (execSync shell command Inherit)
      (λ _,
         throw ("Failed to install dependencies using "
                +:+ pm_name packageManager)).

Definition installComponents (components : list string) : M unit :=
  emit (ESpinStart "Preparing to install components") >>
  try_catch
    (let* availableComponents := listAvailableComponents in
     let invalidComponents :=
       List.filter (λ comp, negb (includes availableComponents comp))
                   components in
     (if Nat.ltb 0 (length invalidComponents) then
        emit (ESpinStop "Invalid components detected") >>
        emit (ELog (nl +:+ "The following components are not available:")) >>
        for_of invalidComponents (λ comp, emit (ELog ("- " +:+ comp))) >>
        emit (ELog (nl +:+ "Available components:")) >>
        for_of availableComponents (λ comp, emit (ELog ("- " +:+ comp))) >>
        exit 1
      else ret tt) >>
     mkdir_recursive componentDir >>
     (* Collect dependencies *)
     emit (ESpinMessage "Analyzing component dependencies") >>
     let* sets := collectDependencies cwd components ([], []) in
     let allDependencies := sets.1 in
     let radixDependencies := sets.2 in
     (* Install dependencies *)
     (if Nat.ltb 0 (length allDependencies) then
        emit (ESpinMessage "Installing shared dependencies") >>
        installDependencies allDependencies
      else ret tt) >>
     (if Nat.ltb 0 (length radixDependencies) then
        emit (ESpinMessage "Installing Radix UI dependencies") >>
        installDependencies radixDependencies
      else ret tt) >>
     (* Copy components *)
     emit (ESpinMessage "Installing components") >>
     let* lists := copyComponentFiles cwd components ([], []) in
     emit (ESpinStop "Component installation completed") >>
     showSummary lists.1 lists.2 allDependencies radixDependencies)
    (λ message,
       emit (ESpinStop "Installation failed") >>
       emit (ECancel message) >>
       exit 1).

(** [add (components?)] *)
Definition add (components : list string)
    (answer : list string → option (list string)) : M unit :=
  emit (EIntro " omnizm - Add Components ") >>
  if Nat.ltb 0 (length components) then
    (* Direct installation mode *)
    installComponents components >>
    emit (EOutro "Component installation completed successfully!")
  else
    (* Interactive mode *)
    emit (ESpinStart "Loading available components") >>
    try_catch
      (let* availableComponents := listAvailableComponents in
       emit (ESpinStop "Components loaded") >>
       (if Nat.eqb (length availableComponents) 0 then
          emit (ECancel "No components found in the ui directory") >> exit 1
        else ret tt) >>
       match answer availableComponents with
       | None => emit (ECancel "Operation cancelled") >> exit 1
       | Some selectedComponents =>
           installComponents selectedComponents >>
           emit (EOutro "Component installation completed successfully!")
       end)
      (λ message, emit (ECancel message) >> exit 1).

Definition main (args : list string) (selectedStack : option string)
    (answer : list string → option (list string)) : M unit :=
  match args with
  | command :: components =>
      if String.eqb command "init" then init selectedStack
      else if String.eqb command "add" then add components answer
      else
        emit (ECancel "Unknown command. Use `init` or `add [component-name]`")
        >> exit 1
  | [] =>
      emit (ECancel "Unknown command. Use `init` or `add [component-name]`")
      >> exit 1
  end.

End Program.
End DirectCli.

(* ===================================================================== *)
(** ** The reader and the copy stage on files held as bytes *)
(* ===================================================================== *)

(** A JavaScript string is represented by its UTF-8 encoding, so the
    encoding [writeFile] applies to a string is the identity, and the
    decoding [readFile (path, 'utf-8')] applies to the bytes of a file
    returns them with every ill-formed sequence replaced by U+FFFD. *)

(** U+FFFD, that is the bytes EF BF BD. *)
Definition replacement : string :=
  String (ascii_of_nat 239)
    (String (ascii_of_nat 191) (String (ascii_of_nat 189) EmptyString)).

(** The decoder between two bytes: at rest, or inside a sequence that
    still needs [needed] bytes, the next of which must lie between
    [lower] and [upper]; [seen] holds the bytes of the sequence so far. *)
Inductive utf8_state : Type :=
| Idle
| Pending (needed lower upper : nat) (seen : string).

(** A byte met at rest: what is put out and the state entered. *)
Definition utf8_start (b : ascii) : string * utf8_state :=
  let n := nat_of_ascii b in
  if Nat.leb n 127 then (String b EmptyString, Idle)
  else if Nat.leb 194 n && Nat.leb n 223 then
    (EmptyString, Pending 1 128 191 (String b EmptyString))
  else if Nat.leb 224 n && Nat.leb n 239 then
    (EmptyString,
     Pending 2 (if Nat.eqb n 224 then 160 else 128)
               (if Nat.eqb n 237 then 159 else 191) (String b EmptyString))
  else if Nat.leb 240 n && Nat.leb n 244 then
    (EmptyString,
     Pending 3 (if Nat.eqb n 240 then 144 else 128)
               (if Nat.eqb n 244 then 143 else 191) (String b EmptyString))
  else (replacement, Idle).

(** The UTF-8 decoder of the Encoding Standard, its output written in
    UTF-8 again: a byte that cannot continue the sequence under way ends
    it with one U+FFFD and is then looked at afresh; a sequence cut short
    by the end of the input gives one U+FFFD. *)
Fixpoint utf8_decode_from (st : utf8_state) (bytes : string) : string :=
  match bytes with
  | EmptyString =>
      match st with
      | Idle => EmptyString
      | Pending _ _ _ _ => replacement
      end
  | String b rest =>
      match st with
      | Idle =>
          (utf8_start b).1 +:+ utf8_decode_from (utf8_start b).2 rest
      | Pending needed lower upper seen =>
          let n := nat_of_ascii b in
          if Nat.leb lower n && Nat.leb n upper then
            match needed with
            | S (S k) =>
                utf8_decode_from
                  (Pending (S k) 128 191 (seen +:+ String b EmptyString)) rest
            | _ =>
                (seen +:+ String b EmptyString) +:+ utf8_decode_from Idle rest
            end
          else
            replacement +:+ (utf8_start b).1
            +:+ utf8_decode_from (utf8_start b).2 rest
      end
  end.

Definition utf8_decode (bytes : string) : string :=
  utf8_decode_from Idle bytes.

Definition byte_in (lower upper : nat) (b : ascii) : Prop :=
  lower <= nat_of_ascii b <= upper.

(** Well-formed UTF-8 byte sequences, after Table 3-7 of the Unicode
    Standard. *)
Inductive well_formed_utf8 : string → Prop :=
| wf_end : well_formed_utf8 EmptyString
| wf_ascii b s :
    byte_in 0 127 b → well_formed_utf8 s → well_formed_utf8 (String b s)
| wf_two b1 b2 s :
    byte_in 194 223 b1 → byte_in 128 191 b2 →
    well_formed_utf8 s → well_formed_utf8 (String b1 (String b2 s))
| wf_three_E0 b1 b2 b3 s :
    byte_in 224 224 b1 → byte_in 160 191 b2 → byte_in 128 191 b3 →
    well_formed_utf8 s →
    well_formed_utf8 (String b1 (String b2 (String b3 s)))
| wf_three_E1_EC b1 b2 b3 s :
    byte_in 225 236 b1 → byte_in 128 191 b2 → byte_in 128 191 b3 →
    well_formed_utf8 s →
    well_formed_utf8 (String b1 (String b2 (String b3 s)))
| wf_three_ED b1 b2 b3 s :
    byte_in 237 237 b1 → byte_in 128 159 b2 → byte_in 128 191 b3 →
    well_formed_utf8 s →
    well_formed_utf8 (String b1 (String b2 (String b3 s)))
| wf_three_EE_EF b1 b2 b3 s :
    byte_in 238 239 b1 → byte_in 128 191 b2 → byte_in 128 191 b3 →
    well_formed_utf8 s →
    well_formed_utf8 (String b1 (String b2 (String b3 s)))
| wf_four_F0 b1 b2 b3 b4 s :
    byte_in 240 240 b1 → byte_in 144 191 b2 → byte_in 128 191 b3 →
    byte_in 128 191 b4 → well_formed_utf8 s →
    well_formed_utf8 (String b1 (String b2 (String b3 (String b4 s))))
| wf_four_F1_F3 b1 b2 b3 b4 s :
    byte_in 241 243 b1 → byte_in 128 191 b2 → byte_in 128 191 b3 →
    byte_in 128 191 b4 → well_formed_utf8 s →
    well_formed_utf8 (String b1 (String b2 (String b3 (String b4 s))))
| wf_four_F4 b1 b2 b3 b4 s :
    byte_in 244 244 b1 → byte_in 128 143 b2 → byte_in 128 191 b3 →
    byte_in 128 191 b4 → well_formed_utf8 s →
    well_formed_utf8 (String b1 (String b2 (String b3 (String b4 s)))).

Module Disk.
Section Program.

Variable cwd : string.

(** [readFile (path, 'utf-8')] on a file held as bytes; [readFile (path)],
    which [exists] uses, returns the bytes as they are. *)
Definition readFile_utf8 (p : path) : M string :=
  let* buffer := readFile p in ret (utf8_decode buffer).

Definition readComponentFromUI (componentName : string) : M Component :=
  try_catch
    (let componentPath := ["ui"; componentName +:+ ".tsx"] in
     let* found := exists_ componentPath in
     if negb found then
       throw ("Component file not found at " +:+ abs_path cwd componentPath)
     else
       let* content := readFile_utf8 componentPath in
       let dependencies :=
         ["class-variance-authority"; "tailwind-merge"; "clsx"] in
       let dependencies :=
         if String.eqb (toLowerCase componentName) "button"
         then dependencies ++ ["@radix-ui/react-slot"]
         else dependencies in
       ret (mkComponent
              [mkComponentFile (componentName +:+ ".tsx") content]
              dependencies))
    (λ message,
       throw ("Failed to read component " +:+ componentName +:+ ": "
              +:+ message)).

(** The loop that copies the files, as in [add] and [installComponents]. *)
Fixpoint copyComponentFiles (components : list string)
    (lists : list string * list string) : M (list string * list string) :=
  match components with
  | [] => ret lists
  | componentName :: rest =>
      let* lists' :=
        try_catch
          (let* component := readComponentFromUI componentName in
           for_of (files component)
             (λ file, writeFile (componentDir ++ [name file]) (content file)) >>
           ret (lists.1 ++ [componentName], lists.2))
          (λ message,
             emit (ELog (nl +:+ "Warning: Failed to add " +:+ componentName)) >>
             emit (ELog message) >>
             ret (lists.1, lists.2 ++ [componentName])) in
      copyComponentFiles rest lists'
  end.

End Program.
End Disk.

(** The exit status of the process once the top-level [await] settles: 0
    after a normal return, 1 after an uncaught rejection, the argument of
    [process.exit] otherwise. *)
Definition exit_code {A} (r : outcome A) : Z :=
  match r with
  | Ret _ => 0
  | Throw _ => 1
  | Exit c => c
  end%Z.

(** The effects recorded in a trace, by kind. *)
Definition is_exec (e : event) : bool :=
  match e with EExec _ _ => true | _ => false end.
Definition is_write (e : event) : bool :=
  match e with EWriteFile _ _ => true | _ => false end.
Definition execs (t : list event) : list event := List.filter is_exec t.
Definition writes (t : list event) : list event := List.filter is_write t.

(* ===================================================================== *)
(** ** Vocabulary of the statements *)
(* ===================================================================== *)

Definition is_file (m : gmap (list string) node) (p : path) : bool :=
  match m !! p with Some (File _) => true | _ => false end.

Definition is_dir (m : gmap (list string) node) (p : path) : bool :=
  match m !! p with Some Dir => true | _ => false end.

(** [ui/<name>.tsx] and [components/ui/<name>.tsx] *)
Definition sourcePath (componentName : string) : path :=
  ["ui"; componentName +:+ ".tsx"].
Definition targetPath (componentName : string) : path :=
  ["components"; "ui"; componentName +:+ ".tsx"].

(** The special-case test of the reader and of the aggregator. *)
Definition isButton (componentName : string) : bool :=
  String.eqb (toLowerCase componentName) "button".

(** The source of a component is a readable file. *)
Definition readable (m : gmap (list string) node) (n : string) : Prop :=
  is_file m (sourcePath n) = true.

(** The two dependency sets after the first pass, by whether any
    component was read and whether one of them was the button. *)
Definition aggregated (any button : bool) : list string * list string :=
  (if any then
     ["class-variance-authority"; "tailwind-merge"; "clsx"]
     ++ (if button then ["@radix-ui/react-slot"] else [])
   else [],
   if button then ["@radix-ui/react-slot"] else []).

(** A component is copied when its source is a readable file, the target
    directory is there and the target itself is not a directory. *)
Definition copy_ok (m : gmap (list string) node) (componentName : string)
  : bool :=
  is_file m (sourcePath componentName)
  && is_dir m componentDir
  && negb (is_dir m (targetPath componentName)).

Definition copy_failed (m : gmap (list string) node) (componentName : string)
  : bool :=
  negb (copy_ok m componentName).

Definition source_content (m : gmap (list string) node)
    (componentName : string) : string :=
  match m !! sourcePath componentName with
  | Some (File c) => c
  | _ => ""
  end.

(** The file system after one component of the second pass, [m0] being
    the file system the pass started from. *)
Definition copied (m0 m : gmap (list string) node) (componentName : string)
  : gmap (list string) node :=
  if copy_ok m0 componentName
  then <[targetPath componentName := File (source_content m0 componentName)]> m
  else m.

(** The [writeFile] calls one component of the second pass issues. *)
Definition copy_writes (m0 : gmap (list string) node) (componentName : string)
  : list event :=
  match m0 !! sourcePath componentName with
  | Some (File c) => [EWriteFile (targetPath componentName) c]
  | _ => []
  end.

(** The second pass never changes what decides the fate of a component:
    the sources, the target directory, and which targets are directories. *)
Definition agree (m0 m : gmap (list string) node) : Prop :=
  (∀ n, m !! sourcePath n = m0 !! sourcePath n)
  ∧ is_dir m componentDir = is_dir m0 componentDir
  ∧ (∀ n, is_dir m (targetPath n) = is_dir m0 (targetPath n)).

(** The available component names of a file system: what
    [listAvailableComponents] returns on it, [None] when it throws. *)
Definition available (m : gmap (list string) node) : option (list string) :=
  match (listAvailableComponents (mkWorld m [])).1 with
  | Ret l => Some l
  | _ => None
  end.

(** A computation that only talks: it returns, leaves the files alone and
    adds neither a [writeFile] nor a command to the trace. *)
Definition talks_only (m : M unit) : Prop :=
  ∀ w, ∃ t, m w = (Ret tt, mkWorld (fs w) (trace w ++ t))
            ∧ writes t = [] ∧ execs t = [].

(** The package manager the lockfiles of a file system select. *)
Definition detected (m : gmap (list string) node) : PackageManager :=
  if is_file m ["yarn.lock"] then yarn
  else if is_file m ["pnpm-lock.yaml"] then pnpm else npm.

(** A string without a full stop. *)
Fixpoint dot_free (s : string) : bool :=
  match s with
  | EmptyString => true
  | String c r => negb (Ascii.eqb c ".") && dot_free r
  end.

(** [cn] of the avatar component: [classes.filter (Boolean).join (' ')];
    the empty string is the one falsy string. *)
Definition cn (classes : list string) : string :=
  join " " (List.filter (λ c, negb (String.eqb c "")) classes).

(** A piece of trace without [mkdir], command or [writeFile]. *)
Definition quiet (t : list event) : Prop :=
  Forall (λ e, ∀ p, e ≠ EMkdir p) t ∧ execs t = [] ∧ writes t = [].

(** The file system, held as bytes, after one component of the copy
    stage, and the [writeFile] call it issues; [m0] is the file system the
    stage started from. *)
Definition disk_copied (m0 m : gmap (list string) node)
    (componentName : string) : gmap (list string) node :=
  if copy_ok m0 componentName
  then <[targetPath componentName
         := File (utf8_decode (source_content m0 componentName))]> m
  else m.

Definition disk_copy_writes (m0 : gmap (list string) node)
    (componentName : string) : list event :=
  match m0 !! sourcePath componentName with
  | Some (File bytes) =>
      [EWriteFile (targetPath componentName) (utf8_decode bytes)]
  | _ => []
  end.

(** *** Example worlds and processes *)

Definition world_with_config : World :=
  mkWorld (<[ ["components.yml"] := File "stack: nextjs" ]> ∅) [].

(** A project with [ui/button.tsx] and [ui/card.tsx] and no lockfile. *)
Definition project_world : World :=
  mkWorld (<[ ["ui"] := Dir ]>
           (<[ ["ui"; "button.tsx"] := File "export const Button = 1" ]>
            (<[ ["ui"; "card.tsx"] := File "export const Card = 2" ]> ∅)))
          [].

(** The same project after a first [add]: [components/ui/button.tsx] is
    there with older content, and [components/ui/card.tsx] is a
    directory. *)
Definition installed_world : World :=
  mkWorld (<[ ["components"] := Dir ]>
           (<[ ["components"; "ui"] := Dir ]>
            (<[ ["components"; "ui"; "button.tsx"] := File "old" ]>
             (<[ ["components"; "ui"; "card.tsx"] := Dir ]>
              (fs project_world)))))
          [].

(** A project whose [ui] directory holds [card.tsx.bak.tsx] only. *)
Definition backup_world : World :=
  mkWorld (<[ ["ui"] := Dir ]>
           (<[ ["ui"; "card.tsx.bak.tsx"] := File "backup" ]> ∅))
          [].

(** A project in which [components.yml] is a directory. *)
Definition config_dir_world : World :=
  mkWorld (<[ ["components.yml"] := Dir ]> (fs project_world)) [].

(** A project in which [ui/table.tsx] is a directory. *)
Definition table_dir_world : World :=
  mkWorld (<[ ["ui"; "table.tsx"] := Dir ]> (fs project_world)) [].

(** A project in which [components] is a file. *)
Definition components_file_world : World :=
  mkWorld (<[ ["components"] := File "notes" ]> (fs project_world)) [].

(** The bytes FF 41: an ill-formed byte followed by the letter A. *)
Definition ill_formed_bytes : string :=
  String (ascii_of_nat 255) (String (ascii_of_nat 65) EmptyString).

(** A project whose [ui/card.tsx] holds these two bytes, the target
    directory being there already. *)
Definition ill_formed_world : World :=
  mkWorld (<[ ["ui"] := Dir ]>
           (<[ ["ui"; "card.tsx"] := File ill_formed_bytes ]>
            (<[ ["components"] := Dir ]>
             (<[ ["components"; "ui"] := Dir ]> ∅))))
          [].

(** A package manager that exits with a non-zero status, and one that
    succeeds; neither touches the files. *)
Definition failing_shell (command : string) (m : gmap (list string) node)
  : bool * gmap (list string) node := (false, m).
Definition succeeding_shell (command : string) (m : gmap (list string) node)
  : bool * gmap (list string) node := (true, m).

(* ===================================================================== *)
(** ** Running the primitives *)
(* ===================================================================== *)

Lemma exists_run (p : path) (w : World) :
  exists_ p w = (Ret (is_file (fs w) p), w).
Proof.
  unfold exists_, try_catch, bind, readFile, ret, is_file.
  destruct (fs w !! p) as [[c|]|]; reflexivity.
Qed.

Lemma detect_run (w : World) :
  detectPackageManager w =
  (Ret (if is_file (fs w) ["yarn.lock"] then yarn
        else if is_file (fs w) ["pnpm-lock.yaml"] then pnpm else npm), w).
Proof.
  unfold detectPackageManager, try_catch, bind.
  rewrite exists_run.
  destruct (is_file (fs w) ["yarn.lock"]); [reflexivity|].
  rewrite exists_run.
  destruct (is_file (fs w) ["pnpm-lock.yaml"]); reflexivity.
Qed.

Lemma readComponent_run (cwd componentName : string) (w : World) :
  readComponentFromUI cwd componentName w =
  match fs w !! sourcePath componentName with
  | Some (File c) =>
      (Ret (mkComponent
              [mkComponentFile (componentName +:+ ".tsx") c]
              (["class-variance-authority"; "tailwind-merge"; "clsx"]
               ++ (if isButton componentName
                   then ["@radix-ui/react-slot"] else []))), w)
  | _ =>
      (Throw ("Failed to read component " +:+ componentName +:+ ": "
              +:+ "Component file not found at "
              +:+ abs_path cwd (sourcePath componentName)), w)
  end.
Proof.
  unfold readComponentFromUI, try_catch, bind.
  rewrite exists_run. unfold is_file, sourcePath, isButton.
  destruct (fs w !! ["ui"; componentName +:+ ".tsx"]) as [[c|]|] eqn:E;
    simpl; try reflexivity.
  unfold readFile. rewrite E.
  destruct (String.eqb (toLowerCase componentName) "button"); reflexivity.
Qed.

(* ===================================================================== *)
(** ** Package manager detection and the reader *)
(* ===================================================================== *)

(** C3. [detectPackageManager] always returns, leaves the world as it
    was, and its value is [yarn] when [yarn.lock] is there (whatever
    [pnpm-lock.yaml] is), [pnpm] when only [pnpm-lock.yaml] is there,
    [npm] when neither is; [PackageManager] has no fourth value. *)
Theorem detectPackageManager_priority (w : World) :
  detectPackageManager w =
  (Ret (if is_file (fs w) ["yarn.lock"] then yarn
        else if is_file (fs w) ["pnpm-lock.yaml"] then pnpm
        else npm),
   w).
Proof. apply detect_run. Qed.

(** C5. [readComponentFromUI name] throws the not-found error exactly when
    [ui/<name>.tsx] is not a readable file; otherwise it returns the one
    file [<name>.tsx] with the content read and the three baseline
    dependencies, followed by [@radix-ui/react-slot] exactly when the
    lower-cased name equals [button]. The world is never changed. *)
Theorem readComponentFromUI_contract (cwd componentName : string) (w : World) :
  (is_file (fs w) (sourcePath componentName) = false ↔
   readComponentFromUI cwd componentName w =
   (Throw ("Failed to read component " +:+ componentName
           +:+ ": Component file not found at "
           +:+ cwd +:+ "/ui/" +:+ componentName +:+ ".tsx"), w))
  ∧ (∀ c, fs w !! sourcePath componentName = Some (File c) →
       readComponentFromUI cwd componentName w =
       (Ret (mkComponent
               [mkComponentFile (componentName +:+ ".tsx") c]
               (if String.eqb (toLowerCase componentName) "button"
                then ["class-variance-authority"; "tailwind-merge"; "clsx";
                      "@radix-ui/react-slot"]
                else ["class-variance-authority"; "tailwind-merge"; "clsx"])),
        w)).
Proof.
  assert (Hp : abs_path cwd (sourcePath componentName)
               = cwd +:+ "/ui/" +:+ componentName +:+ ".tsx").
  { unfold abs_path, sourcePath. simpl. reflexivity. }
  split.
  - rewrite readComponent_run. unfold is_file.
    destruct (fs w !! sourcePath componentName) as [[c|]|]; simpl.
    + split; [discriminate|]. intros H. discriminate H.
    + split; [|reflexivity]. intros _. rewrite Hp. reflexivity.
    + split; [|reflexivity]. intros _. rewrite Hp. reflexivity.
  - intros c Hc. rewrite readComponent_run, Hc. unfold isButton.
    destruct (String.eqb (toLowerCase componentName) "button"); reflexivity.
Qed.

(* ===================================================================== *)
(** ** The installer *)
(* ===================================================================== *)

Lemma execs_app (t1 t2 : list event) : execs (t1 ++ t2) = execs t1 ++ execs t2.
Proof. unfold execs. apply List.filter_app. Qed.

Lemma writes_app (t1 t2 : list event) :
  writes (t1 ++ t2) = writes t1 ++ writes t2.
Proof. unfold writes. apply List.filter_app. Qed.

Lemma CliTs_installDependencies_run shell (d : string) (ds : list string)
    (w : World) :
  let pm := if is_file (fs w) ["yarn.lock"] then yarn
            else if is_file (fs w) ["pnpm-lock.yaml"] then pnpm else npm in
  let command := installCommand pm (d :: ds) in
  let started :=
    trace w ++ [ESpinStart ("Installing dependencies using "
                            +:+ pm_name pm +:+ "...")] in
  CliTs.installDependencies shell (d :: ds) w =
  if (shell command (fs w)).1
  then (Ret tt,
        mkWorld (shell command (fs w)).2
          ((started ++ [EExec command Inherit])
             ++ [ESpinStop "Dependencies installed successfully"]))
  else (Throw ("Failed to install dependencies using " +:+ pm_name pm),
        mkWorld (shell command (fs w)).2
          ((started ++ [EExec command Inherit])
             ++ [ESpinStop "Failed to install dependencies"])).
Proof.
  intros pm command started.
  unfold CliTs.installDependencies.
  change (Nat.eqb (length (d :: ds)) 0) with false. cbv iota.
  unfold bind at 1. rewrite detect_run. fold pm. fold command.
  unfold try_catch, bind, execSync, emit, throw. cbn [fs trace].
  destruct (shell command (fs w)) as [[] m]; reflexivity.
Qed.

Lemma DirectCli_installDependencies_run shell (d : string) (ds : list string)
    (w : World) :
  let pm := if is_file (fs w) ["yarn.lock"] then yarn
            else if is_file (fs w) ["pnpm-lock.yaml"] then pnpm else npm in
  let command := installCommand pm (d :: ds) in
  DirectCli.installDependencies shell (d :: ds) w =
  (if (shell command (fs w)).1 then Ret tt
   else Throw ("Failed to install dependencies using " +:+ pm_name pm),
   mkWorld (shell command (fs w)).2 (trace w ++ [EExec command Inherit])).
Proof.
  intros pm command.
  unfold DirectCli.installDependencies.
  change (Nat.eqb (length (d :: ds)) 0) with false. cbv iota.
  unfold bind at 1. rewrite detect_run. fold pm. fold command.
  unfold try_catch, execSync, throw.
  destruct (shell command (fs w)) as [[] m]; reflexivity.
Qed.

(** C7. [installDependencies] returns at once, with no effect at all, on
    the empty list. On a non-empty list it runs exactly one command,
    with inherited standard streams: [npm install --save], [yarn add] or
    [pnpm add] (the manager detected) followed by the identifiers joined
    with single spaces. It writes no file itself, returns when the
    command succeeds and throws the installation failure otherwise. *)
Theorem installDependencies_one_command shell (w : World) :
  CliTs.installDependencies shell [] w = (Ret tt, w)
  ∧ ∀ (d : string) (ds : list string),
      let dependencies := d :: ds in
      let pm := if is_file (fs w) ["yarn.lock"] then yarn
                else if is_file (fs w) ["pnpm-lock.yaml"] then pnpm
                else npm in
      let command :=
        match pm with
        | npm => "npm install --save " +:+ join " " dependencies
        | yarn => "yarn add " +:+ join " " dependencies
        | pnpm => "pnpm add " +:+ join " " dependencies
        end in
      ∃ r w',
        CliTs.installDependencies shell dependencies w = (r, w')
        ∧ detectPackageManager w = (Ret pm, w)
        ∧ execs (trace w') = execs (trace w) ++ [EExec command Inherit]
        ∧ writes (trace w') = writes (trace w)
        ∧ fs w' = (shell command (fs w)).2
        ∧ r = if (shell command (fs w)).1 then Ret tt
              else Throw ("Failed to install dependencies using "
                          +:+ pm_name pm).
Proof.
  split; [reflexivity|].
  intros d ds dependencies pm command.
  pose proof (CliTs_installDependencies_run shell d ds w) as Hrun.
  cbv zeta in Hrun. fold pm in Hrun.
  replace (installCommand pm (d :: ds)) with command in Hrun
    by (unfold command, installCommand; destruct pm; reflexivity).
  destruct (shell command (fs w)) as [ok m] eqn:Esh. simpl in Hrun.
  destruct ok; eexists _, _; (split; [exact Hrun|]);
    (split; [apply detect_run|]); cbn [fs trace];
    rewrite ?execs_app, ?writes_app; simpl; rewrite ?app_nil_r; auto.
Qed.

(** X18. The same holds of the second source's [installDependencies], which
    only lacks the spinner. *)
Lemma DirectCli_installDependencies_one_command shell (w : World) :
  DirectCli.installDependencies shell [] w = (Ret tt, w)
  ∧ ∀ (d : string) (ds : list string),
      let pm := if is_file (fs w) ["yarn.lock"] then yarn
                else if is_file (fs w) ["pnpm-lock.yaml"] then pnpm
                else npm in
      let command := installCommand pm (d :: ds) in
      ∃ r w',
        DirectCli.installDependencies shell (d :: ds) w = (r, w')
        ∧ execs (trace w') = execs (trace w) ++ [EExec command Inherit]
        ∧ writes (trace w') = writes (trace w).
Proof.
  split; [reflexivity|].
  intros d ds pm command.
  eexists _, _. split; [apply DirectCli_installDependencies_run|].
  cbn [fs trace]. rewrite execs_app, writes_app. simpl.
  rewrite app_nil_r. auto.
Qed.

(* ===================================================================== *)
(** ** [init] *)
(* ===================================================================== *)

Lemma init_with_existing_config closing (selectedStack : option string)
    (w : World) :
  is_file (fs w) CONFIG_FILE = true →
  init_with closing selectedStack w =
  match selectedStack with
  | None =>
      (Exit 1%Z,
       mkWorld (fs w)
         (((trace w ++ [EIntro " omnizm - UI Component CLI "])
             ++ [ELog "Prompting for stack selection..."])
            ++ [ECancel "Operation cancelled"]))
  | Some _ =>
      (Ret tt,
       mkWorld (fs w)
         ((((trace w ++ [EIntro " omnizm - UI Component CLI "])
              ++ [ELog "Prompting for stack selection..."])
             ++ [ESpinStart "Creating components.yml"])
            ++ [ESpinStop "components.yml already exists"]))
  end.
Proof.
  intros Hcfg. unfold init_with, bind, emit, exit. cbn [fs trace].
  destruct selectedStack as [stack|]; [|reflexivity].
  unfold try_catch, bind. rewrite exists_run. cbn [fs trace].
  rewrite Hcfg. reflexivity.
Qed.

(** C9, as the code has it. When [components.yml] is already a file,
    [init] writes nothing: the file system is left as it was and no
    [writeFile] and no command is issued. The process exits with 0 when
    the stack prompt was answered and with 1 when it was cancelled (the
    prompt comes before the check of the file). *)
Theorem init_existing_config_no_write (selectedStack : option string)
    (w : World) :
  is_file (fs w) ["components.yml"] = true →
  ∃ r w',
    CliTs.init selectedStack w = (r, w')
    ∧ fs w' = fs w
    ∧ writes (trace w') = writes (trace w)
    ∧ execs (trace w') = execs (trace w)
    ∧ exit_code r = match selectedStack with
                    | Some _ => 0%Z
                    | None => 1%Z
                    end.
Proof.
  intros Hcfg. unfold CliTs.init.
  rewrite (init_with_existing_config _ selectedStack w Hcfg).
  destruct selectedStack; eexists _, _; (split; [reflexivity|]);
    cbn [fs trace]; rewrite ?writes_app, ?execs_app; simpl;
    rewrite ?app_nil_r; auto.
Qed.

Lemma init_existing_config_no_write_witness :
  ∃ r w',
    CliTs.init (Some "svelte") world_with_config = (r, w')
    ∧ fs w' = fs world_with_config
    ∧ writes (trace w') = writes (trace world_with_config)
    ∧ execs (trace w') = execs (trace world_with_config)
    ∧ exit_code r = 0%Z.
Proof.
  apply (init_existing_config_no_write (Some "svelte") world_with_config).
  vm_compute. reflexivity.
Defined.

(** The [init] of the second source differs in its closing message only. *)
Lemma DirectCli_init_existing_config_no_write (selectedStack : option string)
    (w : World) :
  is_file (fs w) ["components.yml"] = true →
  ∃ r w',
    DirectCli.init selectedStack w = (r, w')
    ∧ fs w' = fs w
    ∧ writes (trace w') = writes (trace w)
    ∧ exit_code r = match selectedStack with
                    | Some _ => 0%Z
                    | None => 1%Z
                    end.
Proof.
  intros Hcfg. unfold DirectCli.init.
  rewrite (init_with_existing_config _ selectedStack w Hcfg).
  destruct selectedStack; eexists _, _; (split; [reflexivity|]);
    cbn [fs trace]; rewrite ?writes_app; simpl; rewrite ?app_nil_r; auto.
Qed.

(** C9 as stated fails: with [components.yml] present and the prompt
    cancelled, the process exits with code 1. *)
Lemma init_existing_config_cancel_exits_1 :
  is_file (fs world_with_config) ["components.yml"] = true
  ∧ exit_code (CliTs.init None world_with_config).1 = 1%Z
  ∧ exit_code (CliTs.init None world_with_config).1 ≠ 0%Z.
Proof. vm_compute. split; [reflexivity|]. split; [reflexivity|]. discriminate. Qed.

(* ===================================================================== *)
(** ** The dependency aggregator *)
(* ===================================================================== *)

Section Aggregator.

Variable cwd : string.

(** One iteration of the first pass on a readable component. *)
Lemma collect_step (any button : bool) (n : string) :
  (button = true → any = true) →
  (fold_left (λ s dep, set_add dep s)
     (["class-variance-authority"; "tailwind-merge"; "clsx"]
      ++ (if isButton n then ["@radix-ui/react-slot"] else []))
     (aggregated any button).1,
   if String.eqb (toLowerCase n) "button"
   then set_add "@radix-ui/react-slot" (aggregated any button).2
   else (aggregated any button).2)
  = aggregated true (button || isButton n).
Proof.
  intros Hinv. fold (isButton n).
  destruct any, button, (isButton n); try reflexivity;
    discriminate (Hinv eq_refl).
Qed.

Lemma collect_run (components : list string) :
  ∀ (any button : bool) (w : World),
    (button = true → any = true) →
    Forall (readable (fs w)) components →
    collectDependencies cwd components (aggregated any button) w =
    (Ret (aggregated (any || negb (bool_decide (components = [])))
                     (button || existsb isButton components)), w).
Proof.
  induction components as [|n rest IH]; intros any button w Hinv Hall.
  - simpl. rewrite !orb_false_r. reflexivity.
  - apply Forall_cons in Hall as [Hn Hrest].
    cbn [collectDependencies]. unfold bind at 1.
    rewrite readComponent_run.
    unfold readable, is_file in Hn.
    destruct (fs w !! sourcePath n) as [[c|]|]; try discriminate Hn.
    cbn [dependencies].
    rewrite (collect_step any button n Hinv).
    rewrite (IH true (button || isButton n) w (λ _, eq_refl) Hrest).
    cbn [existsb]. rewrite orb_true_r, orb_assoc. reflexivity.
Qed.

(** The first pass never changes the world, and it returns only when
    every component of the batch is readable. *)
Lemma collect_returns (components : list string) :
  ∀ sets (w : World) r w',
    collectDependencies cwd components sets w = (Ret r, w') →
    w' = w ∧ Forall (readable (fs w)) components.
Proof.
  induction components as [|n rest IH]; intros sets w r w' Hrun.
  - simpl in Hrun. injection Hrun as _ <-. split; [reflexivity|constructor].
  - cbn [collectDependencies] in Hrun. unfold bind at 1 in Hrun.
    rewrite readComponent_run in Hrun.
    destruct (fs w !! sourcePath n) as [[c|]|] eqn:E; try discriminate Hrun.
    apply IH in Hrun as [-> Hrest]. split; [reflexivity|].
    constructor; [|exact Hrest]. unfold readable, is_file. rewrite E.
    reflexivity.
Qed.

Lemma collect_outcome (components : list string) (w : World) r w' :
  collectDependencies cwd components ([], []) w = (Ret r, w') →
  w' = w
  ∧ Forall (readable (fs w)) components
  ∧ r = aggregated (negb (bool_decide (components = [])))
                   (existsb isButton components).
Proof.
  intros Hrun. destruct (collect_returns _ _ _ _ _ Hrun) as [-> Hall].
  split; [reflexivity|]. split; [exact Hall|].
  change (@nil string, @nil string) with (aggregated false false) in Hrun.
  rewrite (collect_run components false false w) in Hrun
    by (discriminate || assumption).
  simpl in Hrun. congruence.
Qed.

Lemma existsb_same_elements (f : string → bool) (l1 l2 : list string) :
  (∀ x, x ∈ l1 → x ∈ l2) → existsb f l1 = true → existsb f l2 = true.
Proof.
  intros Hsub H. apply existsb_exists in H as [x [Hx Hfx]].
  apply existsb_exists. exists x. split; [|exact Hfx].
  apply list_elem_of_In, Hsub, list_elem_of_In, Hx.
Qed.

Lemma aggregation_sub (l1 l2 : list string) (w : World) sets w' :
  (∀ x, x ∈ l1 ↔ x ∈ l2) →
  collectDependencies cwd l1 ([], []) w = (Ret sets, w') →
  collectDependencies cwd l2 ([], []) w = (Ret sets, w').
Proof.
  intros Hsame Hrun.
  apply collect_outcome in Hrun as (-> & Hall & ->).
  change (@nil string, @nil string) with (aggregated false false).
  rewrite (collect_run l2 false false w); [|discriminate|].
  - assert (Hnil : bool_decide (l1 = []) = bool_decide (l2 = [])).
    { apply bool_decide_ext. split; intros ->.
      - destruct l2 as [|x l2]; [reflexivity|].
        exfalso. apply (not_elem_of_nil x), Hsame. left.
      - destruct l1 as [|x l1]; [reflexivity|].
        exfalso. apply (not_elem_of_nil x), Hsame. left. }
    assert (Hbtn : existsb isButton l1 = existsb isButton l2).
    { destruct (existsb isButton l1) eqn:E1, (existsb isButton l2) eqn:E2;
        try reflexivity.
      - rewrite (existsb_same_elements isButton l1 l2) in E2;
          [discriminate| intros x; apply Hsame | exact E1].
      - rewrite (existsb_same_elements isButton l2 l1) in E1;
          [discriminate| intros x; apply Hsame | exact E2]. }
    simpl. rewrite Hnil, Hbtn. reflexivity.
  - rewrite Forall_forall in Hall |- *. intros x Hx. apply Hall, Hsame, Hx.
Qed.

End Aggregator.

(** C6. The first pass is order-independent and idempotent: over one
    file system, two batches holding the same names (in any order, with
    any repetition) return the same pair of dependency sets, element for
    element in the same insertion order; one returns exactly when the
    other does. *)
Theorem aggregation_order_independent (cwd : string) (l1 l2 : list string)
    (w : World) :
  (∀ x, x ∈ l1 ↔ x ∈ l2) →
  ∀ sets w',
    collectDependencies cwd l1 ([], []) w = (Ret sets, w')
    ↔ collectDependencies cwd l2 ([], []) w = (Ret sets, w').
Proof.
  intros Hsame sets w'. split; apply aggregation_sub; [exact Hsame|].
  intros x. symmetry. apply Hsame.
Qed.

Lemma aggregation_order_independent_witness :
  collectDependencies "/project" ["card"; "button"; "card"] ([], [])
    project_world
  = (Ret (["class-variance-authority"; "tailwind-merge"; "clsx";
           "@radix-ui/react-slot"],
          ["@radix-ui/react-slot"]),
     project_world).
Proof.
  refine (proj1 (aggregation_order_independent "/project"
                   ["button"; "card"] ["card"; "button"; "card"]
                   project_world _ _ _) _).
  - intros x. rewrite !elem_of_cons. tauto.
  - vm_compute. reflexivity.
Defined.

(** C4 as stated fails: for the batch [button] the special-cased
    identifier is a member of the general set too. *)
Lemma special_dependency_in_general_set :
  collectDependencies "/project" ["button"] ([], []) project_world
  = (Ret (["class-variance-authority"; "tailwind-merge"; "clsx";
           "@radix-ui/react-slot"],
          ["@radix-ui/react-slot"]),
     project_world)
  ∧ "@radix-ui/react-slot" ∈ ["@radix-ui/react-slot"]
  ∧ "@radix-ui/react-slot"
      ∈ ["class-variance-authority"; "tailwind-merge"; "clsx";
         "@radix-ui/react-slot"].
Proof.
  split; [vm_compute; reflexivity|]. split.
  - left.
  - do 3 right. left.
Qed.

(** C4, as the code has it. Whenever the first pass returns, the
    special-cased set is contained in the general set: it is
    [@radix-ui/react-slot] alone when some name of the batch lower-cases to
    [button] and empty otherwise, and the general set of a non-empty batch
    is the three baseline identifiers followed by the special-cased set. *)
Theorem special_set_within_general (cwd : string) (components : list string)
    (w : World) (general special : list string) (w' : World) :
  collectDependencies cwd components ([], []) w = (Ret (general, special), w') →
  (∀ dep, dep ∈ special → dep ∈ general)
  ∧ special = (if existsb (λ n, String.eqb (toLowerCase n) "button") components
               then ["@radix-ui/react-slot"] else [])
  ∧ general = (match components with
               | [] => []
               | _ :: _ =>
                   ["class-variance-authority"; "tailwind-merge"; "clsx"]
                   ++ special
               end).
Proof.
  intros Hrun. apply collect_outcome in Hrun as (_ & _ & Hr).
  unfold aggregated in Hr. injection Hr as -> ->.
  fold isButton. change (λ n, isButton n) with isButton.
  split; [|split; [reflexivity|]].
  - intros dep Hdep. destruct components as [|n rest].
    + simpl in Hdep. apply elem_of_nil in Hdep as [].
    + destruct (existsb isButton (n :: rest)).
      * simpl. do 3 right. exact Hdep.
      * apply elem_of_nil in Hdep as [].
  - destruct components; reflexivity.
Qed.

Lemma special_set_within_general_witness :
  (∀ dep, dep ∈ ["@radix-ui/react-slot"] →
          dep ∈ ["class-variance-authority"; "tailwind-merge"; "clsx";
                 "@radix-ui/react-slot"])
  ∧ ["@radix-ui/react-slot"] = ["@radix-ui/react-slot"]
  ∧ ["class-variance-authority"; "tailwind-merge"; "clsx";
     "@radix-ui/react-slot"]
    = ["class-variance-authority"; "tailwind-merge"; "clsx"]
      ++ ["@radix-ui/react-slot"].
Proof.
  apply (special_set_within_general "/project" ["Button"; "card"]
           (mkWorld (<[ ["ui"; "Button.tsx"] := File "b" ]> (fs project_world)) [])
           _ _
           (mkWorld (<[ ["ui"; "Button.tsx"] := File "b" ]> (fs project_world)) [])).
  vm_compute. reflexivity.
Defined.

(* ===================================================================== *)
(** ** The copy stage *)
(* ===================================================================== *)

Lemma list_ascii_of_string_app (s t : string) :
  list_ascii_of_string (s +:+ t)
  = list_ascii_of_string s ++ list_ascii_of_string t.
Proof. induction s as [|c s IH]; simpl; [reflexivity|]. now rewrite IH. Qed.

Lemma append_inj_l (s1 s2 t : string) : s1 +:+ t = s2 +:+ t → s1 = s2.
Proof.
  intros H. apply (f_equal list_ascii_of_string) in H.
  rewrite !list_ascii_of_string_app in H. apply app_inv_tail in H.
  rewrite <- (string_of_list_ascii_of_string s1),
          <- (string_of_list_ascii_of_string s2).
  now rewrite H.
Qed.

Lemma targetPath_inj (n1 n2 : string) : targetPath n1 = targetPath n2 → n1 = n2.
Proof.
  unfold targetPath. intros H. injection H as H. eapply append_inj_l, H.
Qed.

Lemma agree_refl (m : gmap (list string) node) : agree m m.
Proof. repeat split. Qed.

Lemma agree_copy_ok (m0 m : gmap (list string) node) (n : string) :
  agree m0 m → copy_ok m n = copy_ok m0 n.
Proof.
  intros (Hsrc & Hdir & Htgt). unfold copy_ok, is_file.
  rewrite Hsrc, Hdir, Htgt. reflexivity.
Qed.

Lemma agree_copied (m0 m : gmap (list string) node) (n : string) :
  agree m0 m → agree m0 (copied m0 m n).
Proof.
  intros Hag. unfold copied. destruct (copy_ok m0 n) eqn:Hok; [|exact Hag].
  destruct Hag as (Hsrc & Hdir & Htgt). repeat split.
  - intros n'. rewrite lookup_insert_ne; [apply Hsrc|discriminate].
  - unfold is_dir. rewrite lookup_insert_ne; [apply Hdir|discriminate].
  - intros n'. unfold is_dir.
    destruct (decide (targetPath n = targetPath n')) as [E|E].
    + rewrite <- E, lookup_insert_eq.
      unfold copy_ok in Hok. apply andb_prop in Hok as [_ Hok].
      apply negb_true_iff in Hok. unfold is_dir in Hok. now rewrite Hok.
    + rewrite lookup_insert_ne by exact E. apply Htgt.
Qed.

Section CopyStage.

Variable cwd : string.

(** One iteration of the second pass. *)
Lemma copy_step (n : string) (lists : list string * list string)
    (w : World) :
  ∃ t,
    try_catch
      (let* component := readComponentFromUI cwd n in
       for_of (files component)
         (λ file, writeFile (componentDir ++ [name file]) (content file)) >>
       ret (lists.1 ++ [n], lists.2))
      (λ message,
         emit (ELog (nl +:+ "Warning: Failed to add " +:+ n)) >>
         emit (ELog message) >>
         ret (lists.1, lists.2 ++ [n])) w
    = (Ret (lists.1 ++ (if copy_ok (fs w) n then [n] else []),
            lists.2 ++ (if copy_failed (fs w) n then [n] else [])),
       mkWorld (copied (fs w) (fs w) n) t)
    ∧ writes t = writes (trace w) ++ copy_writes (fs w) n
    ∧ execs t = execs (trace w).
Proof.
  unfold try_catch. unfold bind at 1. rewrite readComponent_run.
  unfold copied, copy_failed, copy_ok, copy_writes, source_content,
    is_file, is_dir.
  destruct (fs w !! sourcePath n) as [[c|]|] eqn:Esrc.
  - cbn [files for_of name content]. unfold bind, writeFile, ret.
    change (componentDir ++ [n +:+ ".tsx"]) with (targetPath n).
    change (parent_is_dir (fs w) (targetPath n))
      with (match fs w !! componentDir with
            | Some Dir => true | _ => false end).
    cbn [fs trace].
    destruct (fs w !! componentDir) as [[cd|]|];
      destruct (fs w !! targetPath n) as [[ct|]|];
      cbn [andb negb emit fs trace]; rewrite ?app_nil_r;
      eexists; (split; [reflexivity|]);
      rewrite ?writes_app, ?execs_app; simpl; rewrite ?app_nil_r; auto.
  - unfold bind, emit, ret. cbn [andb negb fs trace]. rewrite !app_nil_r.
    eexists; (split; [reflexivity|]);
      rewrite ?writes_app, ?execs_app; simpl; rewrite ?app_nil_r; auto.
  - unfold bind, emit, ret. cbn [andb negb fs trace]. rewrite !app_nil_r.
    eexists; (split; [reflexivity|]);
      rewrite ?writes_app, ?execs_app; simpl; rewrite ?app_nil_r; auto.
Qed.

(** The second pass as a whole, started from lists [lists] in a world
    whose file system agrees with [m0]. *)
Lemma copy_run (m0 : gmap (list string) node) (components : list string) :
  ∀ (lists : list string * list string) (w : World),
    agree m0 (fs w) →
    ∃ t,
      copyComponentFiles cwd components lists w
      = (Ret (lists.1 ++ List.filter (copy_ok m0) components,
              lists.2 ++ List.filter (copy_failed m0) components),
         mkWorld (foldl (copied m0) (fs w) components) t)
      ∧ writes t = writes (trace w) ++ flat_map (copy_writes m0) components
      ∧ execs t = execs (trace w).
Proof.
  induction components as [|n rest IH]; intros lists w Hag.
  - exists (trace w). simpl. rewrite !app_nil_r. destruct lists, w.
    repeat split.
  - cbn [copyComponentFiles]. unfold bind at 1.
    destruct (copy_step n lists w) as (t1 & -> & Hw1 & He1).
    assert (Hok : copy_ok (fs w) n = copy_ok m0 n)
      by (apply agree_copy_ok, Hag).
    assert (Hcopied : copied (fs w) (fs w) n = copied m0 (fs w) n).
    { unfold copied, source_content. rewrite Hok.
      destruct Hag as (Hsrc & _). now rewrite Hsrc. }
    assert (Hwr : copy_writes (fs w) n = copy_writes m0 n).
    { unfold copy_writes. destruct Hag as (Hsrc & _). now rewrite Hsrc. }
    rewrite Hcopied.
    destruct (IH (lists.1 ++ (if copy_ok (fs w) n then [n] else []),
                  lists.2 ++ (if copy_failed (fs w) n then [n] else []))
                 (mkWorld (copied m0 (fs w) n) t1))
      as (t & -> & Hw & He).
    { cbn [fs]. apply agree_copied, Hag. }
    exists t. cbn [fs trace fst snd foldl List.filter flat_map] in *.
    unfold copy_failed in *. rewrite Hok.
    split.
    + destruct (copy_ok m0 n); cbn [negb];
        rewrite <- ?app_assoc, ?app_nil_r; reflexivity.
    + rewrite Hw, Hw1, He, He1, Hwr, <- app_assoc. split; reflexivity.
Qed.

(** What the file system holds at the targets after the pass. *)
Lemma foldl_copied_keep (m0 : gmap (list string) node)
    (components : list string) (n : string) :
  ∀ m, m !! targetPath n = Some (File (source_content m0 n)) →
       foldl (copied m0) m components !! targetPath n
       = Some (File (source_content m0 n)).
Proof.
  induction components as [|a rest IH]; intros m Hm; [exact Hm|].
  simpl. apply IH. unfold copied. destruct (copy_ok m0 a); [|exact Hm].
  destruct (decide (targetPath a = targetPath n)) as [E|E].
  - rewrite <- E, lookup_insert_eq. apply targetPath_inj in E. now subst.
  - now rewrite lookup_insert_ne.
Qed.

Lemma foldl_copied_target (m0 : gmap (list string) node)
    (components : list string) (n : string) :
  n ∈ components → copy_ok m0 n = true →
  ∀ m, foldl (copied m0) m components !! targetPath n
       = Some (File (source_content m0 n)).
Proof.
  intros Hin Hok. induction components as [|a rest IH]; intros m.
  - apply elem_of_nil in Hin as [].
  - simpl. apply elem_of_cons in Hin as [->|Hin].
    + apply foldl_copied_keep. unfold copied. rewrite Hok.
      apply lookup_insert_eq.
    + apply IH, Hin.
Qed.

(** Paths that are no target of a copied component are left alone. *)
Lemma foldl_copied_other (m0 : gmap (list string) node)
    (components : list string) (p : path) :
  (∀ n, n ∈ components → copy_ok m0 n = true → p ≠ targetPath n) →
  ∀ m, foldl (copied m0) m components !! p = m !! p.
Proof.
  induction components as [|a rest IH]; intros Hp m; [reflexivity|].
  simpl. rewrite IH.
  - unfold copied. destruct (copy_ok m0 a) eqn:Hok; [|reflexivity].
    rewrite lookup_insert_ne; [reflexivity|].
    intros E. eapply Hp; [left|exact Hok|]. now symmetry.
  - intros n Hn. apply Hp. now right.
Qed.

Lemma elem_of_filter_bool (f : string → bool) (l : list string) (x : string) :
  x ∈ List.filter f l ↔ x ∈ l ∧ f x = true.
Proof. rewrite !list_elem_of_In. apply filter_In. Qed.

End CopyStage.

Lemma sublist_filter_bool (f : string → bool) (l : list string) :
  sublist (List.filter f l) l.
Proof.
  induction l as [|x l IH]; simpl; [constructor|].
  destruct (f x); now constructor.
Qed.

(** C1 as stated fails. In a project where [components/ui/card.tsx] is a
    directory, [card] is an available component and is read successfully,
    with its one declared file; the copy stage, given [card] alone,
    records it as failed and leaves the file system as it was: no file
    has been written for this successfully-read component. *)
Lemma copy_stage_read_without_write :
  available (fs installed_world) = Some ["button"; "card"]
  ∧ readComponentFromUI "/project" "card" installed_world
    = (Ret (mkComponent
              [mkComponentFile "card.tsx" "export const Card = 2"]
              ["class-variance-authority"; "tailwind-merge"; "clsx"]),
       installed_world)
  ∧ ∃ t,
      copyComponentFiles "/project" ["card"] ([], []) installed_world
      = (Ret ([], ["card"]), mkWorld (fs installed_world) t).
Proof.
  split; [vm_compute; reflexivity|]. split; [vm_compute; reflexivity|].
  eexists. vm_compute. reflexivity.
Qed.

(** C1, as the code has it. The copy stage always runs to its end,
    whatever the selection (so in particular for a non-empty selection of
    valid names). Whether a component is copied depends on that component
    and on the file system the stage started from only, not on the other
    components. The installed list and the failed list are the selection
    filtered by that outcome, hence both in selection order; every
    selected name is in one of them and not in the other, nothing else is
    in them, and together they are as long as the selection. One
    [writeFile] call is issued, in order, for the one declared file of
    each component whose source could be read; the call may fail. When the
    stage is over the file of every installed component is there, and no
    other path of the file system has changed. *)
Theorem copy_stage_partition (cwd : string) (selection : list string)
    (w : World) :
  let installed := List.filter (copy_ok (fs w)) selection in
  let failed := List.filter (copy_failed (fs w)) selection in
  ∃ w',
    copyComponentFiles cwd selection ([], []) w = (Ret (installed, failed), w')
    ∧ (∀ n, n ∈ selection →
            (n ∈ installed ∧ n ∉ failed) ∨ (n ∈ failed ∧ n ∉ installed))
    ∧ (∀ n, n ∈ installed ∨ n ∈ failed → n ∈ selection)
    ∧ sublist installed selection
    ∧ sublist failed selection
    ∧ length installed + length failed = length selection
    ∧ writes (trace w')
      = writes (trace w)
        ++ flat_map
             (λ n, match fs w !! ["ui"; n +:+ ".tsx"] with
                   | Some (File c) =>
                       [EWriteFile ["components"; "ui"; n +:+ ".tsx"] c]
                   | _ => []
                   end)
             selection
    ∧ (∀ n, n ∈ installed →
            is_file (fs w') ["components"; "ui"; n +:+ ".tsx"] = true)
    ∧ (∀ p, (∀ n, n ∈ installed → p ≠ ["components"; "ui"; n +:+ ".tsx"]) →
            fs w' !! p = fs w !! p).
Proof.
  intros installed failed.
  destruct (copy_run cwd (fs w) selection ([], []) w (agree_refl _))
    as (t & Hrun & Hw & _).
  eexists. split; [exact Hrun|]. cbn [trace fs].
  split; [|split; [|split; [|split; [|split; [|split; [|split]]]]]].
  - intros n Hn. unfold installed, failed.
    rewrite !elem_of_filter_bool. unfold copy_failed.
    destruct (copy_ok (fs w) n); [left|right]; split; auto;
      intros [_ H]; discriminate H.
  - unfold installed, failed. intros n [H|H];
      apply elem_of_filter_bool in H as [H _]; exact H.
  - apply sublist_filter_bool.
  - apply sublist_filter_bool.
  - unfold installed, failed, copy_failed. apply List.filter_length.
  - exact Hw.
  - intros n Hn. apply elem_of_filter_bool in Hn as [Hn Hok].
    unfold is_file.
    change ["components"; "ui"; n +:+ ".tsx"] with (targetPath n).
    now rewrite (foldl_copied_target (fs w) selection n Hn Hok).
  - intros p Hp. apply foldl_copied_other. intros n Hn Hok.
    apply Hp. now apply elem_of_filter_bool.
Qed.

(** On files seen as their decoded text: for every component the copy
    stage records as installed, [components/ui/<name>.tsx] holds, when the
    stage is over, exactly the text [ui/<name>.tsx] had, and that text is
    what [writeFile] was called with. A file already at the target never
    prevents the copy: it is replaced by the source text. *)
Theorem copy_stage_content (cwd : string) (selection : list string)
    (w : World) :
  ∃ installed failed w',
    copyComponentFiles cwd selection ([], []) w = (Ret (installed, failed), w')
    ∧ (∀ n, n ∈ installed →
         ∃ c, fs w !! ["ui"; n +:+ ".tsx"] = Some (File c)
              ∧ fs w' !! ["components"; "ui"; n +:+ ".tsx"] = Some (File c)
              ∧ EWriteFile ["components"; "ui"; n +:+ ".tsx"] c ∈ trace w')
    ∧ (∀ n c old,
         n ∈ selection →
         fs w !! ["ui"; n +:+ ".tsx"] = Some (File c) →
         fs w !! ["components"; "ui"] = Some Dir →
         fs w !! ["components"; "ui"; n +:+ ".tsx"] = Some (File old) →
         n ∈ installed
         ∧ fs w' !! ["components"; "ui"; n +:+ ".tsx"] = Some (File c)).
Proof.
  destruct (copy_run cwd (fs w) selection ([], []) w (agree_refl _))
    as (t & Hrun & Hw & _).
  eexists _, _, _. split; [exact Hrun|]. cbn [fs trace fst snd app].
  assert (Hinst : ∀ n, n ∈ selection → copy_ok (fs w) n = true →
            ∃ c, fs w !! sourcePath n = Some (File c)
                 ∧ foldl (copied (fs w)) (fs w) selection !! targetPath n
                   = Some (File c)
                 ∧ EWriteFile (targetPath n) c ∈ t).
  { intros n Hn Hok.
    pose proof (foldl_copied_target (fs w) selection n Hn Hok (fs w)) as Hfs.
    assert (Hsrc : is_file (fs w) (sourcePath n) = true).
    { unfold copy_ok in Hok. now apply andb_prop in Hok as [Hok _];
        apply andb_prop in Hok as [Hok _]. }
    unfold source_content in Hfs. unfold is_file in Hsrc.
    destruct (fs w !! sourcePath n) as [[c|]|] eqn:E; try discriminate Hsrc.
    exists c. split; [reflexivity|]. split; [exact Hfs|].
    assert (Hin : EWriteFile (targetPath n) c ∈ writes t).
    { rewrite Hw. apply elem_of_app. right.
      apply list_elem_of_In, in_flat_map. exists n.
      split; [now apply list_elem_of_In|].
      unfold copy_writes. rewrite E. now left. }
    unfold writes in Hin. apply list_elem_of_In, filter_In in Hin as [Hin _].
    now apply list_elem_of_In. }
  split.
  - intros n Hn. apply elem_of_filter_bool in Hn as [Hn Hok].
    apply (Hinst n Hn Hok).
  - intros n c old Hn Hsrc Hdir Htgt.
    assert (Hok : copy_ok (fs w) n = true).
    { unfold copy_ok, is_file, is_dir, sourcePath, targetPath, componentDir.
      now rewrite Hsrc, Hdir, Htgt. }
    split; [now apply elem_of_filter_bool|].
    destruct (Hinst n Hn Hok) as (c' & Hc' & Hfs & _).
    unfold sourcePath in Hc'. rewrite Hsrc in Hc'. injection Hc' as <-.
    exact Hfs.
Qed.

(** On a project where [components/ui/button.tsx] already exists with
    other content and [components/ui/card.tsx] is a directory: the button
    is installed over the old file, the card is recorded as failed. *)
Example copy_stage_overwrites :
  ∃ t,
    copyComponentFiles "/project" ["button"; "card"; "table"] ([], [])
      installed_world
    = (Ret (["button"], ["card"; "table"]),
       mkWorld (<[ ["components"; "ui"; "button.tsx"]
                   := File "export const Button = 1" ]> (fs installed_world))
               t)
    ∧ writes t
      = [EWriteFile ["components"; "ui"; "button.tsx"] "export const Button = 1";
         EWriteFile ["components"; "ui"; "card.tsx"] "export const Card = 2"].
Proof. eexists. split; vm_compute; reflexivity. Qed.

(* ===================================================================== *)
(** ** Validation of explicit names *)
(* ===================================================================== *)

Lemma listAvailable_run (w : World) :
  listAvailableComponents w =
  (match available (fs w) with
   | Some l => Ret l
   | None => Throw "Unable to read UI components directory"
   end, w).
Proof.
  unfold available, listAvailableComponents, try_catch, bind, readdir, throw,
    ret. cbn [fs].
  destruct (fs w !! ["ui"]) as [[c|]|]; reflexivity.
Qed.

Lemma for_of_log (f : string → string) (l : list string) :
  ∀ w, for_of l (λ comp, emit (ELog (f comp))) w
       = (Ret tt, mkWorld (fs w) (trace w ++ map (λ comp, ELog (f comp)) l)).
Proof.
  induction l as [|x l IH]; intros w.
  - simpl. rewrite app_nil_r. destruct w; reflexivity.
  - cbn [for_of map]. unfold bind at 1, emit at 1. rewrite IH.
    cbn [fs trace]. now rewrite <- app_assoc.
Qed.

Lemma execs_map_log (f : string → string) (l : list string) :
  execs (map (λ comp, ELog (f comp)) l) = [].
Proof. induction l; [reflexivity|assumption]. Qed.

Lemma writes_map_log (f : string → string) (l : list string) :
  writes (map (λ comp, ELog (f comp)) l) = [].
Proof. induction l; [reflexivity|assumption]. Qed.

Lemma includes_false (l : list string) (x : string) :
  x ∉ l → includes l x = false.
Proof.
  intros Hx. unfold includes. destruct (existsb (String.eqb x) l) eqn:E;
    [|reflexivity].
  apply existsb_exists in E as [y [Hy Heq]]. apply String.eqb_eq in Heq.
  subst y. exfalso. apply Hx, list_elem_of_In, Hy.
Qed.

Lemma includes_true (l : list string) (x : string) :
  x ∈ l → includes l x = true.
Proof.
  intros Hx. apply existsb_exists. exists x.
  split; [now apply list_elem_of_In|apply String.eqb_refl].
Qed.

Lemma installComponents_invalid (cwd : string) shell
    (components : list string) (w : World) (c : string) :
  c ∈ components →
  (∀ avail, available (fs w) = Some avail → c ∉ avail) →
  ∃ t,
    DirectCli.installComponents cwd shell components w
    = (Exit 1%Z, mkWorld (fs w) (trace w ++ t))
    ∧ execs t = [] ∧ writes t = [].
Proof.
  intros Hc Hbad. unfold DirectCli.installComponents.
  unfold bind at 1, emit at 1. unfold try_catch. unfold bind at 1.
  rewrite listAvailable_run. cbn [fs trace].
  destruct (available (fs w)) as [avail|] eqn:Eav.
  - specialize (Hbad avail eq_refl).
    set (invalid := List.filter (λ comp, negb (includes avail comp)) components).
    assert (Hin : c ∈ invalid).
    { apply elem_of_filter_bool. split; [exact Hc|].
      now rewrite includes_false. }
    destruct invalid as [|i invalid'] eqn:Einv;
      [apply elem_of_nil in Hin as []|].
    change (Nat.ltb 0 (length (i :: invalid'))) with true. cbv iota.
    unfold bind at 1. unfold bind at 1.
    unfold bind at 1, emit at 1. unfold bind at 1, emit at 1.
    unfold bind at 1. rewrite for_of_log. unfold bind at 1, emit at 1.
    unfold bind at 1. rewrite for_of_log. unfold exit. cbn [fs trace].
    eexists. split.
    + rewrite <- !app_assoc. reflexivity.
    + rewrite !execs_app, !writes_app, !execs_map_log, !writes_map_log.
      split; reflexivity.
  - unfold bind, emit, exit. cbn [fs trace]. eexists. split.
    + rewrite <- !app_assoc. reflexivity.
    + split; reflexivity.
Qed.

(** C8. [add] with explicit names of which one is not an available
    component (or when the components cannot even be listed) ends in
    [process.exit (1)]; no command has been executed, no file written and
    the file system is as it was. *)
Theorem add_unrecognized_name_exits (cwd : string) shell
    (components : list string) (answer : list string → option (list string))
    (w : World) (c : string) :
  c ∈ components →
  (∀ avail, available (fs w) = Some avail → c ∉ avail) →
  ∃ w',
    DirectCli.add cwd shell components answer w = (Exit 1%Z, w')
    ∧ exit_code (DirectCli.add cwd shell components answer w).1 ≠ 0%Z
    ∧ execs (trace w') = execs (trace w)
    ∧ writes (trace w') = writes (trace w)
    ∧ fs w' = fs w.
Proof.
  intros Hc Hbad. unfold DirectCli.add.
  destruct components as [|c0 rest]; [apply elem_of_nil in Hc as []|].
  change (Nat.ltb 0 (length (c0 :: rest))) with true. cbv iota.
  unfold bind at 1, emit at 1.
  destruct (installComponents_invalid cwd shell (c0 :: rest)
              (mkWorld (fs w) (trace w ++ [EIntro " omnizm - Add Components "]))
              c Hc Hbad) as (t & Hrun & He & Hw).
  unfold bind at 1. rewrite Hrun. cbn [fs trace].
  eexists. split; [reflexivity|].
  split.
  - unfold bind at 1, emit at 1. unfold bind at 1. rewrite Hrun.
    simpl. discriminate.
  - cbn [fs trace]. rewrite !execs_app, !writes_app, He, Hw. simpl.
    rewrite !app_nil_r. auto.
Qed.

Lemma add_unrecognized_name_exits_witness :
  ∃ w',
    DirectCli.add "/project" succeeding_shell ["button"; "tooltip"]
      (λ _, None) project_world = (Exit 1%Z, w')
    ∧ exit_code (DirectCli.add "/project" succeeding_shell
                   ["button"; "tooltip"] (λ _, None) project_world).1 ≠ 0%Z
    ∧ execs (trace w') = execs (trace project_world)
    ∧ writes (trace w') = writes (trace project_world)
    ∧ fs w' = fs project_world.
Proof.
  apply (add_unrecognized_name_exits "/project" succeeding_shell
           ["button"; "tooltip"] (λ _, None) project_world "tooltip").
  - right. left.
  - intros avail Hav. vm_compute in Hav. injection Hav as <-.
    intros H. apply elem_of_cons in H as [H|H]; [discriminate H|].
    apply elem_of_cons in H as [H|H]; [discriminate H|].
    apply elem_of_nil in H as [].
Defined.

(* ===================================================================== *)
(** ** Installation failure *)
(* ===================================================================== *)

Lemma bind_Ret {A B} (m : M A) (k : A → M B) (w w1 : World) (a : A) :
  m w = (Ret a, w1) → bind m k w = k a w1.
Proof. intros H. unfold bind. now rewrite H. Qed.

Lemma talks_only_ret : talks_only (ret tt).
Proof. intros w. exists []. rewrite app_nil_r. now destruct w. Qed.

Lemma talks_only_emit (e : event) :
  is_write e = false → is_exec e = false → talks_only (emit e).
Proof.
  intros Hw He w. exists [e]. unfold emit, writes, execs. simpl.
  now rewrite Hw, He.
Qed.

Lemma talks_only_bind (m k : M unit) :
  talks_only m → talks_only k → talks_only (m >> k).
Proof.
  intros Hm Hk w. destruct (Hm w) as (t1 & E1 & W1 & X1).
  destruct (Hk (mkWorld (fs w) (trace w ++ t1))) as (t2 & E2 & W2 & X2).
  exists (t1 ++ t2). rewrite (bind_Ret _ _ _ _ _ E1), E2. cbn [fs trace].
  rewrite app_assoc, writes_app, execs_app, W1, W2, X1, X2. auto.
Qed.

Lemma talks_only_if (b : bool) (m k : M unit) :
  talks_only m → talks_only k → talks_only (if b then m else k).
Proof. now destruct b. Qed.

Lemma talks_only_for_of (f : string → string) (l : list string) :
  talks_only (for_of l (λ comp, emit (ELog (f comp)))).
Proof.
  intros w. eexists. rewrite for_of_log. split; [reflexivity|].
  now rewrite writes_map_log, execs_map_log.
Qed.

Ltac talks :=
  repeat first
    [ apply talks_only_bind | apply talks_only_if | apply talks_only_ret
    | apply talks_only_for_of | apply talks_only_emit; reflexivity ].

Lemma showSummary_talks_only (installed failed all radix : list string) :
  talks_only (showSummary installed failed all radix).
Proof. unfold showSummary. talks. Qed.

(** The guarded installation of [src/cli/cli.ts]: whatever the package
    manager does, the block returns and [add] goes on. *)
Lemma CliTs_guarded_install shell (starting : string) (after : M unit)
    (handler : string → M unit) (deps : list string) (w : World) :
  talks_only after →
  (∀ message, talks_only (handler message)) →
  ∃ w',
    (if Nat.ltb 0 (length deps) then
       emit (ESpinStart starting) >>
       try_catch (CliTs.installDependencies shell deps >> after) handler
     else ret tt) w = (Ret tt, w')
    ∧ writes (trace w') = writes (trace w).
Proof.
  intros Hafter Hhandler. destruct deps as [|d ds].
  - exists w. split; reflexivity.
  - change (Nat.ltb 0 (length (d :: ds))) with true. cbv iota.
    unfold bind at 1, emit at 1. unfold try_catch. unfold bind at 1.
    rewrite CliTs_installDependencies_run. cbn [fs trace].
    match goal with
    | |- context [shell ?c ?m] => destruct (shell c m) as [[] m']
    end; cbn [fst snd].
    + match goal with
      | |- context [after ?w0] =>
          destruct (Hafter w0) as (t & -> & Hw & _)
      end.
      eexists. split; [reflexivity|]. cbn [trace].
      rewrite !writes_app, Hw. simpl. now rewrite !app_nil_r.
    + match goal with
      | |- context [handler ?msg ?w0] =>
          destruct (Hhandler msg w0) as (t & -> & Hw & _)
      end.
      eexists. split; [reflexivity|]. cbn [trace].
      rewrite !writes_app, Hw. simpl. now rewrite !app_nil_r.
Qed.

Lemma mkdir_recursive_run (p : path) (w : World) m :
  mkdir_from [] p (fs w) = Some m →
  mkdir_recursive p w = (Ret tt, mkWorld m (trace w ++ [EMkdir p])).
Proof. intros H. unfold mkdir_recursive. now rewrite H. Qed.

(** In [src/cli/cli.ts] a failing installer is not fatal: once the
    selection is made, the target directory is there and the components
    are readable, [add] returns normally for every behaviour of the
    package manager, and the files it has written are those of the copy
    stage run on the file system [m] the installer left. *)
Lemma CliTs_add_survives_install_failure (cwd : string) shell
    (answer : list string → option (list string)) (w : World)
    (components selected : list string) m1 :
  available (fs w) = Some components →
  components ≠ [] →
  answer components = Some selected →
  mkdir_from [] componentDir (fs w) = Some m1 →
  Forall (readable m1) selected →
  ∃ m w',
    CliTs.add cwd shell answer w = (Ret tt, w')
    ∧ writes (trace w')
      = writes (trace w) ++ flat_map (copy_writes m) selected
    ∧ fs w' = foldl (copied m) m selected.
Proof.
  intros Hav Hne Hans Hmk Hread. unfold CliTs.add.
  unfold bind at 1, emit at 1. unfold bind at 1, emit at 1.
  unfold try_catch at 1. unfold bind at 1. rewrite listAvailable_run.
  cbn [fs trace]. rewrite Hav.
  unfold bind at 1, emit at 1. unfold bind at 1.
  destruct components as [|c0 cs]; [congruence|].
  change (Nat.eqb (length (c0 :: cs)) 0) with false. cbv iota.
  unfold ret at 1. rewrite Hans.
  unfold bind at 1. rewrite (mkdir_recursive_run _ _ m1) by exact Hmk.
  cbn [fs trace].
  unfold bind at 1, emit at 1. unfold bind at 1.
  change (collectDependencies cwd selected ([], []))
    with (collectDependencies cwd selected (aggregated false false)).
  rewrite (collect_run cwd selected false false) by (discriminate || exact Hread).
  unfold bind at 1, emit at 1. cbn [fs trace].
  unfold bind at 1.
  match goal with
  | |- context [(if Nat.ltb 0 (length ?deps) then
                   emit (ESpinStart ?s) >> try_catch (_ >> ?after) ?h
                 else ret tt) ?w0] =>
      destruct (CliTs_guarded_install shell s after h deps w0)
        as (w2 & -> & Hw2); [talks| intros; talks |]
  end.
  unfold bind at 1.
  match goal with
  | |- context [(if Nat.ltb 0 (length ?deps) then
                   emit (ESpinStart ?s) >> try_catch (_ >> ?after) ?h
                 else ret tt) w2] =>
      destruct (CliTs_guarded_install shell s after h deps w2)
        as (w3 & -> & Hw3); [talks| intros; talks |]
  end.
  unfold bind at 1, emit at 1. unfold bind at 1.
  destruct (copy_run cwd (fs w3) selected ([], [])
              (mkWorld (fs w3)
                 (trace w3 ++ [ESpinStart "Copying component files"]))
              (agree_refl _)) as (t & -> & Hwt & _).
  unfold bind at 1, emit at 1. unfold bind at 1.
  match goal with
  | |- context [showSummary ?a ?b ?c ?d ?w0] =>
      destruct (showSummary_talks_only a b c d w0) as (ts & -> & Hws & _)
  end.
  unfold emit. cbn [fs trace].
  exists (fs w3). eexists. split; [reflexivity|]. cbn [fs trace].
  split; [|reflexivity].
  rewrite !writes_app, Hws, Hwt. cbn [trace]. rewrite !writes_app, Hw3, Hw2.
  cbn [trace]. rewrite !writes_app. simpl. now rewrite !app_nil_r.
Qed.

Lemma filter_invalid_nil (avail components : list string) :
  Forall (λ c, c ∈ avail) components →
  List.filter (λ comp, negb (includes avail comp)) components = [].
Proof.
  induction 1 as [|c cs Hc _ IH]; [reflexivity|].
  simpl. now rewrite (includes_true _ _ Hc).
Qed.

(** X17. In the source with direct installation the same failure is fatal:
    when the first package-manager command exits with a non-zero status,
    [installComponents] (and so [add]) ends in [process.exit (1)] and
    the copy stage never starts: no file is written. *)
Lemma DirectCli_install_failure_is_fatal (cwd : string) shell
    (components avail : list string)
    (answer : list string → option (list string)) (w : World) m1 :
  components ≠ [] →
  available (fs w) = Some avail →
  Forall (λ c, c ∈ avail) components →
  mkdir_from [] componentDir (fs w) = Some m1 →
  Forall (readable m1) components →
  (∀ command, (shell command m1).1 = false) →
  ∃ w',
    DirectCli.add cwd shell components answer w = (Exit 1%Z, w')
    ∧ writes (trace w') = writes (trace w)
    ∧ length (execs (trace w')) = S (length (execs (trace w))).
Proof.
  intros Hne Hav Hvalid Hmk Hread Hfail. unfold DirectCli.add.
  destruct components as [|c0 cs]; [congruence|].
  change (Nat.ltb 0 (length (c0 :: cs))) with true. cbv iota.
  unfold bind at 1, emit at 1. unfold bind at 1.
  unfold DirectCli.installComponents.
  unfold bind at 1, emit at 1. unfold try_catch at 1. unfold bind at 1.
  rewrite listAvailable_run. cbn [fs trace]. rewrite Hav.
  rewrite (filter_invalid_nil avail (c0 :: cs) Hvalid).
  change (Nat.ltb 0 (length (@nil string))) with false. cbv iota.
  unfold bind at 1. unfold ret at 1.
  unfold bind at 1. rewrite (mkdir_recursive_run _ _ m1) by exact Hmk.
  cbn [fs trace].
  unfold bind at 1, emit at 1. unfold bind at 1.
  change (collectDependencies cwd (c0 :: cs) ([], []))
    with (collectDependencies cwd (c0 :: cs) (aggregated false false)).
  rewrite (collect_run cwd (c0 :: cs) false false) by (discriminate || exact Hread).
  rewrite bool_decide_eq_false_2 by discriminate.
  cbn [orb negb aggregated fst snd fs trace].
  unfold bind at 1.
  change (Nat.ltb 0 (length
            (["class-variance-authority"; "tailwind-merge"; "clsx"] ++
             (if existsb isButton (c0 :: cs)
              then ["@radix-ui/react-slot"] else [])))) with true.
  cbv iota. unfold bind at 1, emit at 1.
  cbn [app].
  rewrite DirectCli_installDependencies_run. cbn [fs trace].
  rewrite Hfail. unfold bind, emit, exit. cbn [fs trace].
  eexists. split; [reflexivity|]. cbn [trace].
  rewrite !writes_app, !execs_app, !length_app. simpl.
  rewrite !app_nil_r. split; [reflexivity|lia].
Qed.

Ltac find_event := repeat first [left; reflexivity | right].

(** C2 on the source with direct installation. [add button] in a project
    with [ui/button.tsx] and no lockfile, with a package manager that
    exits with a non-zero status: the one command run is the [npm]
    installation, the failure reaches the outer handler, which cancels
    and exits with code 1; no [writeFile] is issued and
    [components/ui/button.tsx] does not exist afterwards. *)
Theorem direct_add_aborts_on_install_failure :
  let run :=
    DirectCli.main "/project" failing_shell ["add"; "button"] None (λ _, None)
      project_world in
  run.1 = Exit 1%Z
  ∧ execs (trace run.2)
    = [EExec ("npm install --save class-variance-authority tailwind-merge "
              +:+ "clsx @radix-ui/react-slot") Inherit]
  ∧ ECancel "Failed to install dependencies using npm" ∈ trace run.2
  ∧ writes (trace run.2) = []
  ∧ fs run.2 !! ["components"; "ui"; "button.tsx"] = None.
Proof.
  vm_compute. repeat split. find_event.
Qed.

(** The same run in [src/cli/cli.ts] (the button chosen at the prompt):
    both failures are printed as warnings, the copy stage runs and [add]
    returns normally. *)
Example cli_ts_add_warns_on_install_failure :
  let run :=
    CliTs.main "/project" failing_shell ["add"] None (λ _, Some ["button"])
      project_world in
  run.1 = Ret tt
  ∧ ELog (nl +:+ "Warning: Failed to install dependencies") ∈ trace run.2
  ∧ ELog (nl +:+ "Warning: Failed to install Radix UI dependencies")
      ∈ trace run.2
  ∧ writes (trace run.2)
    = [EWriteFile ["components"; "ui"; "button.tsx"] "export const Button = 1"]
  ∧ fs run.2 !! ["components"; "ui"; "button.tsx"]
    = Some (File "export const Button = 1").
Proof.
  vm_compute. repeat split; find_event.
Qed.

(* ===================================================================== *)
(** ** The available components *)
(* ===================================================================== *)

Lemma entry_in_Some (d p : path) (n : string) :
  entry_in d p = Some n ↔ p = d ++ [n].
Proof.
  unfold entry_in. split.
  - destruct (reverse p) as [|s rd] eqn:E; [discriminate|].
    case_decide as Hd; [|discriminate]. intros [= <-].
    rewrite <- (reverse_involutive p), E, reverse_cons. now rewrite Hd.
  - intros ->. rewrite reverse_snoc. rewrite reverse_involutive.
    case_decide; [reflexivity|congruence].
Qed.

Lemma elem_of_listing (d : path) (m : gmap (list string) node) (n : string) :
  n ∈ omap (λ kv, entry_in d kv.1) (map_to_list m) ↔ is_Some (m !! (d ++ [n])).
Proof.
  rewrite list_elem_of_omap. split.
  - intros ([p x] & Hin & He). apply elem_of_map_to_list in Hin.
    apply entry_in_Some in He. simpl in He. subst p. now exists x.
  - intros [x Hx]. exists (d ++ [n], x). split.
    + now apply elem_of_map_to_list.
    + now apply entry_in_Some.
Qed.

Lemma length_append (s t : string) :
  String.length (s +:+ t) = String.length s + String.length t.
Proof. induction s as [|c s IH]; simpl; [reflexivity|now rewrite IH]. Qed.

Lemma drop_chars_append (s t : string) :
  drop_chars (String.length s) (s +:+ t) = t.
Proof. induction s as [|c s IH]; simpl; [reflexivity|exact IH]. Qed.

Lemma endsWith_append (s t : string) : endsWith (s +:+ t) t = true.
Proof.
  unfold endsWith. rewrite length_append.
  replace (String.length s + String.length t - String.length t)
    with (String.length s) by lia.
  rewrite drop_chars_append, String.eqb_refl, andb_true_r.
  apply Nat.leb_le. lia.
Qed.

Lemma replace_first_tsx (a b : string) :
  dot_free a = true → replace (a +:+ ".tsx" +:+ b) ".tsx" "" = a +:+ b.
Proof.
  induction a as [|c a IH]; intros Hdot.
  - destruct b; reflexivity.
  - simpl in Hdot. apply andb_prop in Hdot as [Hc Ha].
    apply negb_true_iff in Hc.
    change (replace (String c a +:+ ".tsx" +:+ b) ".tsx" "")
      with (if Ascii.eqb "." c && startsWith (a +:+ ".tsx" +:+ b) "tsx"
            then drop_chars 4 (String c a +:+ ".tsx" +:+ b)
            else String c (replace (a +:+ ".tsx" +:+ b) ".tsx" "")).
    rewrite Ascii.eqb_sym, Hc. cbn [andb]. now rewrite (IH Ha).
Qed.

Lemma append_empty_r (s : string) : s +:+ "" = s.
Proof.
  induction s as [|c s IH]; [reflexivity|].
  change (String c (s +:+ "") = String c s). now f_equal.
Qed.

Lemma elem_of_map_filter (f : string → string) (g : string → bool)
    (l : list string) (n : string) :
  n ∈ map f (List.filter g l) ↔ ∃ x, x ∈ l ∧ g x = true ∧ n = f x.
Proof.
  rewrite list_elem_of_In, in_map_iff. split.
  - intros (x & <- & Hx). apply filter_In in Hx as [Hx Hg].
    exists x. now rewrite list_elem_of_In.
  - intros (x & Hx & Hg & ->). exists x. split; [reflexivity|].
    apply filter_In. now rewrite <- list_elem_of_In.
Qed.

(** X1. [listAvailableComponents] throws its one error exactly when [ui] is
    not a directory. Otherwise it returns, and a name is in the result
    exactly when it is what [replace ('.tsx', '')] makes of some entry of
    [ui] that ends in [.tsx]. It never changes the world. *)
Theorem listAvailableComponents_entries (w : World) :
  match fs w !! ["ui"] with
  | Some Dir =>
      ∃ l, listAvailableComponents w = (Ret l, w)
           ∧ ∀ n, n ∈ l ↔
                  ∃ file, is_Some (fs w !! ["ui"; file])
                          ∧ endsWith file ".tsx" = true
                          ∧ n = replace file ".tsx" ""
  | _ =>
      listAvailableComponents w
      = (Throw "Unable to read UI components directory", w)
  end.
Proof.
  unfold listAvailableComponents, try_catch, bind, readdir, ret, throw.
  destruct (fs w !! ["ui"]) as [[c|]|] eqn:E; try reflexivity.
  eexists. split; [reflexivity|]. intros n.
  rewrite elem_of_map_filter. split.
  - intros (x & Hx & Hg & ->). exists x. split; [|auto].
    now apply (elem_of_listing ["ui"]) in Hx.
  - intros (x & Hx & Hg & ->). exists x. split; [|auto].
    now apply (elem_of_listing ["ui"]).
Qed.

(** X2. A component file whose stem holds no full stop is offered under its
    stem, and reading the component under that name succeeds with the
    content of the file. *)
Theorem component_file_is_offered (cwd : string) (w : World)
    (n c : string) :
  dot_free n = true →
  fs w !! ["ui"] = Some Dir →
  fs w !! ["ui"; n +:+ ".tsx"] = Some (File c) →
  ∃ l comp,
    listAvailableComponents w = (Ret l, w)
    ∧ n ∈ l
    ∧ readComponentFromUI cwd n w = (Ret comp, w)
    ∧ files comp = [mkComponentFile (n +:+ ".tsx") c].
Proof.
  intros Hdot Hui Hfile.
  pose proof (listAvailableComponents_entries w) as Hl. rewrite Hui in Hl.
  destruct Hl as (l & Hrun & Hin).
  exists l. eexists. split; [exact Hrun|]. split.
  - apply Hin. exists (n +:+ ".tsx"). rewrite Hfile. split; [eauto|].
    split; [apply endsWith_append|].
    rewrite <- (append_empty_r (n +:+ ".tsx")), <- (append_empty_r n) at 1.
    pose proof (replace_first_tsx n "" Hdot) as Hr.
    rewrite !append_empty_r in *. now rewrite Hr.
  - rewrite readComponent_run. unfold sourcePath. rewrite Hfile.
    split; reflexivity.
Qed.

Lemma component_file_is_offered_witness :
  ∃ l comp,
    listAvailableComponents project_world = (Ret l, project_world)
    ∧ "card" ∈ l
    ∧ readComponentFromUI "/project" "card" project_world
      = (Ret comp, project_world)
    ∧ files comp = [mkComponentFile "card.tsx" "export const Card = 2"].
Proof.
  apply (component_file_is_offered "/project" project_world "card"
           "export const Card = 2"); vm_compute; reflexivity.
Defined.

Lemma append_assoc (a b c : string) : (a +:+ b) +:+ c = a +:+ b +:+ c.
Proof.
  induction a as [|x a IH]; [reflexivity|].
  change (String x ((a +:+ b) +:+ c) = String x (a +:+ b +:+ c)).
  now f_equal.
Qed.

(** X3. [replace] removes the first [.tsx], not the extension: an entry
    [<a>.tsx<b>.tsx] with no full stop in [a] is offered as [<a><b>.tsx]
    (its stem is [<a>.tsx<b>]), and the source file then looked for under
    that name is [ui/<a><b>.tsx.tsx]. *)
Theorem inner_tsx_entry_is_offered_mangled (cwd : string) (w : World)
    (a b : string) :
  dot_free a = true →
  fs w !! ["ui"] = Some Dir →
  is_Some (fs w !! ["ui"; a +:+ ".tsx" +:+ b +:+ ".tsx"]) →
  ∃ l, listAvailableComponents w = (Ret l, w)
       ∧ (a +:+ b +:+ ".tsx") ∈ l
       ∧ (is_file (fs w) ["ui"; a +:+ b +:+ ".tsx" +:+ ".tsx"] = false →
          ∃ message,
            readComponentFromUI cwd (a +:+ b +:+ ".tsx") w = (Throw message, w)).
Proof.
  intros Hdot Hui Hentry.
  pose proof (listAvailableComponents_entries w) as Hl. rewrite Hui in Hl.
  destruct Hl as (l & Hrun & Hin).
  exists l. split; [exact Hrun|]. split.
  - apply Hin. exists (a +:+ ".tsx" +:+ b +:+ ".tsx").
    split; [exact Hentry|]. split.
    + rewrite <- (append_assoc ".tsx" b ".tsx"), <- append_assoc.
      apply endsWith_append.
    + now rewrite (replace_first_tsx a (b +:+ ".tsx") Hdot).
  - intros Hno. rewrite readComponent_run. unfold sourcePath.
    rewrite !append_assoc. unfold is_file in Hno.
    destruct (fs w !! ["ui"; a +:+ b +:+ ".tsx" +:+ ".tsx"]) as [[c|]|];
      [discriminate Hno| |]; eexists; reflexivity.
Qed.

Lemma inner_tsx_entry_is_offered_mangled_witness :
  ∃ l, listAvailableComponents backup_world = (Ret l, backup_world)
       ∧ "card.bak.tsx" ∈ l
       ∧ (is_file (fs backup_world) ["ui"; "card.bak.tsx.tsx"] = false →
          ∃ message,
            readComponentFromUI "/project" "card.bak.tsx" backup_world
            = (Throw message, backup_world)).
Proof.
  apply (inner_tsx_entry_is_offered_mangled "/project" backup_world
           "card" ".bak").
  - reflexivity.
  - vm_compute. reflexivity.
  - vm_compute. eexists. reflexivity.
Defined.

(* ===================================================================== *)
(** ** [init], every case *)
(* ===================================================================== *)

Lemma init_with_run closing (selectedStack : option string) (w : World) :
  let opening :=
    (trace w ++ [EIntro " omnizm - UI Component CLI "])
      ++ [ELog "Prompting for stack selection..."] in
  init_with closing selectedStack w =
  match selectedStack with
  | None => (Exit 1%Z, mkWorld (fs w) (opening ++ [ECancel "Operation cancelled"]))
  | Some stack =>
      let started := opening ++ [ESpinStart "Creating components.yml"] in
      let written :=
        started ++ [EWriteFile CONFIG_FILE (getDefaultConfig stack)] in
      match fs w !! CONFIG_FILE with
      | Some (File _) =>
          (Ret tt,
           mkWorld (fs w) (started ++ [ESpinStop "components.yml already exists"]))
      | Some Dir =>
          (Exit 1%Z,
           mkWorld (fs w)
             ((written ++ [ESpinStop "Failed to create components.yml"])
                ++ [ECancel "An error occurred during initialization"]))
      | None =>
          (Ret tt,
           mkWorld (<[CONFIG_FILE := File (getDefaultConfig stack)]> (fs w))
             ((written ++ [ESpinStop "Created components.yml"])
                ++ [EOutro (closing stack)]))
      end
  end.
Proof.
  intros opening. unfold init_with, bind, emit, exit. cbn [fs trace].
  destruct selectedStack as [stack|]; [|reflexivity].
  unfold try_catch, bind. rewrite exists_run. cbn [fs trace].
  unfold is_file, writeFile, emit, ret, exit.
  destruct (fs w !! CONFIG_FILE) as [[c|]|] eqn:E;
    cbv beta iota zeta; cbn [fs trace]; rewrite ?E; reflexivity.
Qed.

(** X4. On a project without [components.yml], an answered [init] writes the
    file once, with the template of the chosen stack, prints the closing
    message and returns (exit code 0); nothing else changes. *)
Theorem init_creates_config closing (stack : string) (w : World) :
  fs w !! ["components.yml"] = None →
  ∃ w',
    init_with closing (Some stack) w = (Ret tt, w')
    ∧ fs w' = <[ ["components.yml"] := File (getDefaultConfig stack) ]> (fs w)
    ∧ writes (trace w')
      = writes (trace w)
        ++ [EWriteFile ["components.yml"] (getDefaultConfig stack)]
    ∧ execs (trace w') = execs (trace w)
    ∧ EOutro (closing stack) ∈ trace w'.
Proof.
  intros Hno. rewrite init_with_run. cbv zeta.
  change CONFIG_FILE with ["components.yml"]. rewrite Hno.
  eexists. split; [reflexivity|]. cbn [fs trace].
  rewrite !writes_app, !execs_app. simpl. rewrite !app_nil_r.
  repeat split. rewrite !elem_of_app. right. left.
Qed.

Lemma init_creates_config_witness :
  ∃ w',
    CliTs.init (Some "remix") project_world = (Ret tt, w')
    ∧ fs w' = <[ ["components.yml"] := File (getDefaultConfig "remix") ]>
                (fs project_world)
    ∧ writes (trace w')
      = writes (trace project_world)
        ++ [EWriteFile ["components.yml"] (getDefaultConfig "remix")]
    ∧ execs (trace w') = execs (trace project_world)
    ∧ EOutro ("Installation complete! Stack selected: remix" +:+ nl +:+
              "You can now start adding components with `npx omnizm add`")
        ∈ trace w'.
Proof.
  apply (init_creates_config
           (λ stack,
              "Installation complete! Stack selected: " +:+ stack +:+ nl +:+
              "You can now start adding components with `npx omnizm add`")
           "remix" project_world).
  vm_compute. reflexivity.
Defined.

(** X5. Whatever the answer and the project, [init] touches no path but
    [components.yml], never replaces what is already at that path, and
    never runs a command. *)
Theorem init_frame closing (selectedStack : option string) (w : World) :
  ∃ r w',
    init_with closing selectedStack w = (r, w')
    ∧ (∀ p, p ≠ ["components.yml"] → fs w' !! p = fs w !! p)
    ∧ (∀ x, fs w !! ["components.yml"] = Some x →
            fs w' !! ["components.yml"] = Some x)
    ∧ execs (trace w') = execs (trace w).
Proof.
  rewrite init_with_run. cbv zeta. change CONFIG_FILE with ["components.yml"].
  destruct selectedStack as [stack|];
    [destruct (fs w !! ["components.yml"]) as [[c|]|] eqn:E|];
    eexists _, _; (split; [reflexivity|]); cbn [fs trace];
    rewrite !execs_app; simpl; rewrite ?app_nil_r;
    (split; [|split; [|reflexivity]]); try tauto; try congruence.
  intros p Hp. now rewrite lookup_insert_ne.
Qed.


(** X7. After an [init] that returned, [components.yml] is a file, and a
    further [init], whatever the answer, leaves the file system as it is
    and writes nothing. *)
Theorem init_twice closing closing' (first second : option string)
    (w w1 : World) :
  init_with closing first w = (Ret tt, w1) →
  is_file (fs w1) ["components.yml"] = true
  ∧ ∃ r w2,
      init_with closing' second w1 = (r, w2)
      ∧ fs w2 = fs w1
      ∧ writes (trace w2) = writes (trace w1).
Proof.
  rewrite init_with_run. cbv zeta. change CONFIG_FILE with ["components.yml"].
  intros Hrun.
  assert (Hfile : is_file (fs w1) ["components.yml"] = true).
  { unfold is_file. destruct first as [stack|]; [|discriminate Hrun].
    destruct (fs w !! ["components.yml"]) as [[c|]|] eqn:E;
      try discriminate Hrun; injection Hrun as <-; cbn [fs].
    - now rewrite E.
    - now rewrite lookup_insert_eq. }
  split; [exact Hfile|].
  rewrite (init_with_existing_config closing' second w1 Hfile).
  destruct second; eexists _, _; (split; [reflexivity|]); cbn [fs trace];
    rewrite !writes_app; simpl; rewrite ?app_nil_r; auto.
Qed.

Lemma init_twice_witness :
  is_file (fs (CliTs.init (Some "astro") project_world).2) ["components.yml"]
  = true
  ∧ ∃ r w2,
      CliTs.init (Some "svelte") (CliTs.init (Some "astro") project_world).2
      = (r, w2)
      ∧ fs w2 = fs (CliTs.init (Some "astro") project_world).2
      ∧ writes (trace w2)
        = writes (trace (CliTs.init (Some "astro") project_world).2).
Proof.
  apply (init_twice
           (λ stack,
              "Installation complete! Stack selected: " +:+ stack +:+ nl +:+
              "You can now start adding components with `npx omnizm add`")
           (λ stack,
              "Installation complete! Stack selected: " +:+ stack +:+ nl +:+
              "You can now start adding components with `npx omnizm add`")
           (Some "astro") (Some "svelte") project_world).
  vm_compute. reflexivity.
Defined.

(* ===================================================================== *)
(** ** The command switch and the early exits of [add] *)
(* ===================================================================== *)

(** X8. A first argument other than [init] and [add], or none at all, makes
    both programs print the unknown-command message and exit with code 1
    without touching anything. *)
Theorem main_unknown_command (cwd : string) shell (args : list string)
    (selectedStack : option string)
    (answer : list string → option (list string)) (w : World) :
  head args ≠ Some "init" →
  head args ≠ Some "add" →
  CliTs.main cwd shell args selectedStack answer w
  = (Exit 1%Z,
     mkWorld (fs w) (trace w ++ [ECancel "Unknown command. Use `init` or `add`"]))
  ∧ DirectCli.main cwd shell args selectedStack answer w
    = (Exit 1%Z,
       mkWorld (fs w)
         (trace w
          ++ [ECancel "Unknown command. Use `init` or `add [component-name]`"])).
Proof.
  intros Hinit Hadd. unfold CliTs.main, DirectCli.main.
  destruct args as [|command rest]; [split; reflexivity|].
  simpl in Hinit, Hadd.
  destruct (String.eqb_spec command "init") as [->|_]; [congruence|].
  destruct (String.eqb_spec command "add") as [->|_]; [congruence|].
  split; reflexivity.
Qed.

Lemma main_unknown_command_witness :
  CliTs.main "/project" succeeding_shell ["remove"; "button"] None (λ _, None)
    project_world
  = (Exit 1%Z,
     mkWorld (fs project_world)
       (trace project_world ++ [ECancel "Unknown command. Use `init` or `add`"]))
  ∧ DirectCli.main "/project" succeeding_shell ["remove"; "button"] None
      (λ _, None) project_world
    = (Exit 1%Z,
       mkWorld (fs project_world)
         (trace project_world
          ++ [ECancel "Unknown command. Use `init` or `add [component-name]`"])).
Proof.
  apply (main_unknown_command "/project" succeeding_shell
           ["remove"; "button"] None (λ _, None) project_world);
    simpl; discriminate.
Defined.

Lemma CliTs_add_early (cwd : string) shell
    (answer : list string → option (list string)) (w : World) :
  (available (fs w) = None
   ∨ available (fs w) = Some []
   ∨ ∃ l, available (fs w) = Some l ∧ answer l = None) →
  ∃ t, CliTs.add cwd shell answer w = (Exit 1%Z, mkWorld (fs w) (trace w ++ t))
       ∧ quiet t.
Proof.
  intros Hcase. unfold CliTs.add.
  unfold bind at 1, emit at 1. unfold bind at 1, emit at 1.
  unfold try_catch at 1. unfold bind at 1.
  rewrite listAvailable_run. cbn [fs trace].
  destruct (available (fs w)) as [[|c cs]|] eqn:Eav.
  - unfold bind, emit, exit. cbn [fs trace length Nat.eqb].
    eexists. rewrite <- !app_assoc. split; [reflexivity|].
    split; [|split; reflexivity]. repeat constructor; intros p; discriminate.
  - destruct Hcase as [H|[H|(l & H & Hans)]]; try discriminate H.
    injection H as <-.
    unfold bind at 1, emit at 1. unfold bind at 1.
    change (Nat.eqb (length (c :: cs)) 0) with false. cbv iota.
    unfold ret at 1. rewrite Hans. unfold bind, emit, exit. cbn [fs trace].
    eexists. rewrite <- !app_assoc. split; [reflexivity|].
    split; [|split; reflexivity]. repeat constructor; intros p; discriminate.
  - unfold bind, emit, exit, throw. cbn [fs trace].
    eexists. rewrite <- !app_assoc. split; [reflexivity|].
    split; [|split; reflexivity]. repeat constructor; intros p; discriminate.
Qed.

Lemma DirectCli_add_early (cwd : string) shell
    (answer : list string → option (list string)) (w : World) :
  (available (fs w) = None
   ∨ available (fs w) = Some []
   ∨ ∃ l, available (fs w) = Some l ∧ answer l = None) →
  ∃ t, DirectCli.add cwd shell [] answer w
       = (Exit 1%Z, mkWorld (fs w) (trace w ++ t))
       ∧ quiet t.
Proof.
  intros Hcase. unfold DirectCli.add.
  change (Nat.ltb 0 (length (@nil string))) with false. cbv iota.
  unfold bind at 1, emit at 1. unfold bind at 1, emit at 1.
  unfold try_catch at 1. unfold bind at 1.
  rewrite listAvailable_run. cbn [fs trace].
  destruct (available (fs w)) as [[|c cs]|] eqn:Eav.
  - unfold bind, emit, exit. cbn [fs trace length Nat.eqb].
    eexists. rewrite <- !app_assoc. split; [reflexivity|].
    split; [|split; reflexivity]. repeat constructor; intros p; discriminate.
  - destruct Hcase as [H|[H|(l & H & Hans)]]; try discriminate H.
    injection H as <-.
    unfold bind at 1, emit at 1. unfold bind at 1.
    change (Nat.eqb (length (c :: cs)) 0) with false. cbv iota.
    unfold ret at 1. rewrite Hans. unfold bind, emit, exit. cbn [fs trace].
    eexists. rewrite <- !app_assoc. split; [reflexivity|].
    split; [|split; reflexivity]. repeat constructor; intros p; discriminate.
  - unfold bind, emit, exit, throw. cbn [fs trace].
    eexists. rewrite <- !app_assoc. split; [reflexivity|].
    split; [|split; reflexivity]. repeat constructor; intros p; discriminate.
Qed.

(** X9. Interactive [add] stops with exit code 1 before it creates a
    directory, runs a command or writes a file when the [ui] directory
    cannot be listed, when it offers no component, or when the selection
    prompt is cancelled. *)
Theorem add_early_exit (cwd : string) shell
    (answer : list string → option (list string)) (w : World) :
  (available (fs w) = None
   ∨ available (fs w) = Some []
   ∨ ∃ l, available (fs w) = Some l ∧ answer l = None) →
  ∃ t1 t2,
    CliTs.add cwd shell answer w = (Exit 1%Z, mkWorld (fs w) (trace w ++ t1))
    ∧ DirectCli.add cwd shell [] answer w
      = (Exit 1%Z, mkWorld (fs w) (trace w ++ t2))
    ∧ Forall (λ e, ∀ p, e ≠ EMkdir p) (t1 ++ t2)
    ∧ execs (t1 ++ t2) = []
    ∧ writes (t1 ++ t2) = [].
Proof.
  intros Hcase.
  destruct (CliTs_add_early cwd shell answer w Hcase) as (t1 & H1 & F1 & E1 & W1).
  destruct (DirectCli_add_early cwd shell answer w Hcase)
    as (t2 & H2 & F2 & E2 & W2).
  exists t1, t2. split; [exact H1|]. split; [exact H2|].
  rewrite execs_app, writes_app, E1, E2, W1, W2.
  split; [|split; reflexivity]. apply Forall_app. now split.
Qed.

Lemma add_early_exit_witness :
  ∃ t1 t2,
    CliTs.add "/project" succeeding_shell (λ _, None) project_world
    = (Exit 1%Z, mkWorld (fs project_world) (trace project_world ++ t1))
    ∧ DirectCli.add "/project" succeeding_shell [] (λ _, None) project_world
      = (Exit 1%Z, mkWorld (fs project_world) (trace project_world ++ t2))
    ∧ Forall (λ e, ∀ p, e ≠ EMkdir p) (t1 ++ t2)
    ∧ execs (t1 ++ t2) = []
    ∧ writes (t1 ++ t2) = [].
Proof.
  apply (add_early_exit "/project" succeeding_shell (λ _, None) project_world).
  right. right. exists ["button"; "card"]. split; vm_compute; reflexivity.
Defined.

(* ===================================================================== *)
(** ** Whole runs of [add] *)
(* ===================================================================== *)

(** The first pass stops at the first component it cannot read. *)
Lemma collect_throws (cwd : string) (components : list string) :
  ∀ sets (w : World),
    ¬ Forall (readable (fs w)) components →
    ∃ n, n ∈ components
         ∧ is_file (fs w) (sourcePath n) = false
         ∧ collectDependencies cwd components sets w
           = (Throw ("Failed to read component " +:+ n +:+ ": "
                     +:+ "Component file not found at "
                     +:+ abs_path cwd (sourcePath n)), w).
Proof.
  induction components as [|c rest IH]; intros sets w Hnot.
  - exfalso. apply Hnot. constructor.
  - cbn [collectDependencies]. unfold bind at 1. rewrite readComponent_run.
    destruct (is_file (fs w) (sourcePath c)) eqn:Ec.
    + unfold is_file in Ec.
      destruct (fs w !! sourcePath c) as [[x|]|] eqn:E; try discriminate Ec.
      destruct (IH (fold_left (λ s dep, set_add dep s)
                      (["class-variance-authority"; "tailwind-merge"; "clsx"]
                       ++ (if isButton c then ["@radix-ui/react-slot"] else []))
                      sets.1,
                    if String.eqb (toLowerCase c) "button"
                    then set_add "@radix-ui/react-slot" sets.2 else sets.2) w)
        as (n & Hn & Hfile & Hrun).
      { intros Hrest. apply Hnot. constructor; [|exact Hrest].
        unfold readable, is_file. now rewrite E. }
      exists n. split; [now right|]. split; [exact Hfile|exact Hrun].
    + exists c. split; [left|]. split; [exact Ec|].
      unfold is_file in Ec.
      destruct (fs w !! sourcePath c) as [[x|]|]; [discriminate Ec| |];
        reflexivity.
Qed.

Lemma CliTs_add_unreadable (cwd : string) shell
    (answer : list string → option (list string)) (w : World)
    (avail selected : list string) m1 :
  available (fs w) = Some avail →
  avail ≠ [] →
  answer avail = Some selected →
  mkdir_from [] componentDir (fs w) = Some m1 →
  ¬ Forall (readable m1) selected →
  ∃ t, CliTs.add cwd shell answer w = (Exit 1%Z, mkWorld m1 (trace w ++ t))
       ∧ execs t = [] ∧ writes t = [].
Proof.
  intros Hav Hne Hans Hmk Hbad. unfold CliTs.add.
  unfold bind at 1, emit at 1. unfold bind at 1, emit at 1.
  unfold try_catch at 1. unfold bind at 1. rewrite listAvailable_run.
  cbn [fs trace]. rewrite Hav.
  unfold bind at 1, emit at 1. unfold bind at 1.
  destruct avail as [|c0 cs]; [congruence|].
  change (Nat.eqb (length (c0 :: cs)) 0) with false. cbv iota.
  unfold ret at 1. rewrite Hans.
  unfold bind at 1. rewrite (mkdir_recursive_run _ _ m1) by exact Hmk.
  cbn [fs trace].
  unfold bind at 1, emit at 1. unfold bind at 1.
  match goal with
  | |- context [collectDependencies cwd selected ?sets ?w0] =>
      destruct (collect_throws cwd selected sets w0 Hbad) as (n & _ & _ & ->)
  end.
  unfold bind, emit, exit. cbn [fs trace].
  eexists. rewrite <- !app_assoc. split; [reflexivity|]. split; reflexivity.
Qed.

Lemma DirectCli_add_unreadable (cwd : string) shell
    (answer : list string → option (list string)) (w : World)
    (avail components : list string) m1 :
  available (fs w) = Some avail →
  components ≠ [] →
  Forall (λ c, c ∈ avail) components →
  mkdir_from [] componentDir (fs w) = Some m1 →
  ¬ Forall (readable m1) components →
  ∃ t, DirectCli.add cwd shell components answer w
       = (Exit 1%Z, mkWorld m1 (trace w ++ t))
       ∧ execs t = [] ∧ writes t = [].
Proof.
  intros Hav Hne Hvalid Hmk Hbad. unfold DirectCli.add.
  destruct components as [|c0 cs]; [congruence|].
  change (Nat.ltb 0 (length (c0 :: cs))) with true. cbv iota.
  unfold bind at 1, emit at 1. unfold bind at 1.
  unfold DirectCli.installComponents.
  unfold bind at 1, emit at 1. unfold try_catch at 1. unfold bind at 1.
  rewrite listAvailable_run. cbn [fs trace]. rewrite Hav.
  rewrite (filter_invalid_nil avail (c0 :: cs) Hvalid).
  change (Nat.ltb 0 (length (@nil string))) with false. cbv iota.
  unfold bind at 1. unfold ret at 1.
  unfold bind at 1. rewrite (mkdir_recursive_run _ _ m1) by exact Hmk.
  cbn [fs trace].
  unfold bind at 1, emit at 1. unfold bind at 1.
  match goal with
  | |- context [collectDependencies cwd (c0 :: cs) ?sets ?w0] =>
      destruct (collect_throws cwd (c0 :: cs) sets w0 Hbad) as (n & _ & _ & ->)
  end.
  unfold bind, emit, exit. cbn [fs trace].
  eexists. rewrite <- !app_assoc. split; [reflexivity|]. split; reflexivity.
Qed.

(** X10. Unlike the copy stage, the first pass has no handler of its own: one
    selected component that cannot be read (a valid name whose source is
    a directory or is missing) ends the whole run with exit code 1, after
    the target directory was created and before any command is run or
    any file copied, in both programs. *)
Theorem add_unreadable_component_aborts (cwd : string) shell
    (answer : list string → option (list string)) (w : World)
    (avail selected : list string) m1 :
  available (fs w) = Some avail →
  selected ≠ [] →
  Forall (λ c, c ∈ avail) selected →
  answer avail = Some selected →
  mkdir_from [] ["components"; "ui"] (fs w) = Some m1 →
  (∃ n, n ∈ selected ∧ is_file m1 ["ui"; n +:+ ".tsx"] = false) →
  ∃ t1 t2,
    CliTs.add cwd shell answer w = (Exit 1%Z, mkWorld m1 (trace w ++ t1))
    ∧ DirectCli.add cwd shell selected answer w
      = (Exit 1%Z, mkWorld m1 (trace w ++ t2))
    ∧ execs (t1 ++ t2) = []
    ∧ writes (t1 ++ t2) = [].
Proof.
  intros Hav Hne Hvalid Hans Hmk (n & Hn & Hfile).
  assert (Hbad : ¬ Forall (readable m1) selected).
  { intros Hall. rewrite Forall_forall in Hall. specialize (Hall n Hn).
    unfold readable, sourcePath in Hall. congruence. }
  assert (Havne : avail ≠ []).
  { destruct selected as [|c cs]; [congruence|].
    apply Forall_cons in Hvalid as [Hc _]. intros ->.
    now apply elem_of_nil in Hc. }
  destruct (CliTs_add_unreadable cwd shell answer w avail selected m1
              Hav Havne Hans Hmk Hbad) as (t1 & H1 & E1 & W1).
  destruct (DirectCli_add_unreadable cwd shell answer w avail selected m1
              Hav Hne Hvalid Hmk Hbad) as (t2 & H2 & E2 & W2).
  exists t1, t2. rewrite execs_app, writes_app, E1, E2, W1, W2. auto.
Qed.

Lemma add_unreadable_component_aborts_witness :
  ∃ t1 t2,
    CliTs.add "/project" succeeding_shell (λ _, Some ["button"; "table"])
      table_dir_world
    = (Exit 1%Z,
       mkWorld (<[ ["components"; "ui"] := Dir ]>
                (<[ ["components"] := Dir ]> (fs table_dir_world)))
               (trace table_dir_world ++ t1))
    ∧ DirectCli.add "/project" succeeding_shell ["button"; "table"]
        (λ _, Some ["button"; "table"]) table_dir_world
      = (Exit 1%Z,
         mkWorld (<[ ["components"; "ui"] := Dir ]>
                  (<[ ["components"] := Dir ]> (fs table_dir_world)))
                 (trace table_dir_world ++ t2))
    ∧ execs (t1 ++ t2) = []
    ∧ writes (t1 ++ t2) = [].
Proof.
  apply (add_unreadable_component_aborts "/project" succeeding_shell
           (λ _, Some ["button"; "table"]) table_dir_world
           ["button"; "table"; "card"] ["button"; "table"]).
  - vm_compute. reflexivity.
  - discriminate.
  - repeat constructor.
  - reflexivity.
  - vm_compute. reflexivity.
  - exists "table". split; [right; left|]. vm_compute. reflexivity.
Defined.

Lemma CliTs_guarded_install_trace shell (starting : string) (after : M unit)
    (handler : string → M unit) (d : string) (ds : list string) (w : World) :
  talks_only after →
  (∀ message, talks_only (handler message)) →
  let command := installCommand (detected (fs w)) (d :: ds) in
  ∃ t,
    (if Nat.ltb 0 (length (d :: ds)) then
       emit (ESpinStart starting) >>
       try_catch (CliTs.installDependencies shell (d :: ds) >> after) handler
     else ret tt) w
    = (Ret tt, mkWorld (shell command (fs w)).2 (trace w ++ t))
    ∧ execs t = [EExec command Inherit]
    ∧ writes t = [].
Proof.
  intros Hafter Hhandler command.
  change (Nat.ltb 0 (length (d :: ds))) with true. cbv iota.
  unfold bind at 1, emit at 1. unfold try_catch. unfold bind at 1.
  rewrite CliTs_installDependencies_run. cbn [fs trace].
  fold (detected (fs w)). fold command.
  destruct (shell command (fs w)) as [[] m']; cbn [fst snd].
  - match goal with
    | |- context [after ?w0] => destruct (Hafter w0) as (t & -> & Hw & He)
    end.
    eexists. cbn [fs trace]. rewrite <- !app_assoc.
    split; [reflexivity|]. rewrite !execs_app, !writes_app, Hw, He.
    split; reflexivity.
  - match goal with
    | |- context [handler ?msg ?w0] =>
        destruct (Hhandler msg w0) as (t & -> & Hw & He)
    end.
    eexists. cbn [fs trace]. rewrite <- !app_assoc.
    split; [reflexivity|]. rewrite !execs_app, !writes_app, Hw, He.
    split; reflexivity.
Qed.

(** X12. A whole run of [add] in [src/cli/cli.ts], whatever the package
    manager does. For a non-empty selection of readable components the
    package manager is run once with the general set, and once more with
    [@radix-ui/react-slot] alone when a button is selected (so that
    identifier is installed twice); the package manager is detected anew
    for the second command. Then the copy stage runs on the file system
    the commands left, and [add] returns after its closing message. *)
Theorem CliTs_add_run (cwd : string) shell
    (answer : list string → option (list string)) (w : World)
    (avail selected : list string) m1 :
  available (fs w) = Some avail →
  avail ≠ [] →
  answer avail = Some selected →
  selected ≠ [] →
  mkdir_from [] ["components"; "ui"] (fs w) = Some m1 →
  Forall (λ n, is_file m1 ["ui"; n +:+ ".tsx"] = true) selected →
  let button :=
    existsb (λ n, String.eqb (toLowerCase n) "button") selected in
  let general :=
    ["class-variance-authority"; "tailwind-merge"; "clsx"]
    ++ (if button then ["@radix-ui/react-slot"] else []) in
  let first := installCommand (detected m1) general in
  let m2 := (shell first m1).2 in
  let second := installCommand (detected m2) ["@radix-ui/react-slot"] in
  let m3 := if button then (shell second m2).2 else m2 in
  ∃ w',
    CliTs.add cwd shell answer w = (Ret tt, w')
    ∧ execs (trace w')
      = execs (trace w)
        ++ EExec first Inherit
           :: (if button then [EExec second Inherit] else [])
    ∧ writes (trace w') = writes (trace w) ++ flat_map (copy_writes m3) selected
    ∧ fs w' = foldl (copied m3) m3 selected
    ∧ EOutro "Component installation completed successfully!" ∈ trace w'.
Proof.
  intros Hav Hne Hans Hsel Hmk Hread button general first m2 second m3.
  unfold CliTs.add.
  unfold bind at 1, emit at 1. unfold bind at 1, emit at 1.
  unfold try_catch at 1. unfold bind at 1. rewrite listAvailable_run.
  cbn [fs trace]. rewrite Hav.
  unfold bind at 1, emit at 1. unfold bind at 1.
  destruct avail as [|c0 cs]; [congruence|].
  change (Nat.eqb (length (c0 :: cs)) 0) with false. cbv iota.
  unfold ret at 1. rewrite Hans.
  unfold bind at 1.
  rewrite (mkdir_recursive_run _ _ m1) by exact Hmk.
  cbn [fs trace].
  unfold bind at 1, emit at 1. unfold bind at 1.
  change (collectDependencies cwd selected ([], []))
    with (collectDependencies cwd selected (aggregated false false)).
  rewrite (collect_run cwd selected false false) by (discriminate || exact Hread).
  rewrite bool_decide_eq_false_2 by exact Hsel.
  change (existsb isButton selected) with button.
  cbn [orb negb aggregated fst snd].
  unfold bind at 1, emit at 1. cbn [fs trace].
  unfold bind at 1. fold general.
  assert (Hgen : ∃ d ds, general = d :: ds) by (eexists _, _; reflexivity).
  destruct Hgen as (d & ds & Hgen). rewrite Hgen.
  match goal with
  | |- context [(if Nat.ltb 0 (length (d :: ds)) then
                   emit (ESpinStart ?s) >> try_catch (_ >> ?after) ?h
                 else ret tt) ?w0] =>
      destruct (CliTs_guarded_install_trace shell s after h d ds w0)
        as (ta & -> & Hea & Hwa); [talks| intros; talks |]
  end.
  cbn [fs trace]. rewrite <- Hgen in *. fold first. fold m2.
  unfold bind at 1.
  assert (Hsecond :
    ∃ tb,
      (if Nat.ltb 0 (length (if button then ["@radix-ui/react-slot"] else []))
       then
         emit (ESpinStart "Installing Radix UI dependencies") >>
         try_catch
           (CliTs.installDependencies shell
              (if button then ["@radix-ui/react-slot"] else []) >>
            emit (ESpinStop "Radix UI dependencies installed"))
           (λ message,
              emit (ESpinStop "Failed to install Radix UI dependencies") >>
              emit (ELog (nl +:+ "Warning: Failed to install Radix UI dependencies")) >>
              emit (ELog message))
       else ret tt)
        (mkWorld m2
           ((((((((trace w ++ [EIntro " omnizm - Add Components "])
                    ++ [ESpinStart "Loading available components"])
                   ++ [ESpinStop "Components loaded"])
                  ++ [EMkdir componentDir])
                 ++ [ESpinStart "Analyzing component dependencies"])
                ++ [ESpinStop "Dependencies analyzed"]))
              ++ ta))
      = (Ret tt,
         mkWorld m3
           (((((((((trace w ++ [EIntro " omnizm - Add Components "])
                    ++ [ESpinStart "Loading available components"])
                   ++ [ESpinStop "Components loaded"])
                  ++ [EMkdir componentDir])
                 ++ [ESpinStart "Analyzing component dependencies"])
                ++ [ESpinStop "Dependencies analyzed"]))
              ++ ta) ++ tb))
      ∧ execs tb = (if button then [EExec second Inherit] else [])
      ∧ writes tb = []).
  { unfold m3, second. destruct button.
    - match goal with
      | |- context [(if Nat.ltb 0 (length (?d :: ?ds)) then
                       emit (ESpinStart ?s) >> try_catch (_ >> ?after) ?h
                     else ret tt) ?w0] =>
          destruct (CliTs_guarded_install_trace shell s after h d ds w0)
            as (tb & Hb & Heb & Hwb); [talks| intros; talks |]
      end.
      exists tb. cbn [fs trace] in Hb. split; [exact Hb|]. now split.
    - exists []. rewrite app_nil_r. repeat split. }
  destruct Hsecond as (tb & -> & Heb & Hwb).
  unfold bind at 1, emit at 1. unfold bind at 1. cbn [fs trace].
  match goal with
  | |- context [copyComponentFiles cwd selected ([], []) ?w0] =>
      destruct (copy_run cwd m3 selected ([], []) w0 (agree_refl _))
        as (t & -> & Hwt & Het)
  end.
  unfold bind at 1, emit at 1. unfold bind at 1.
  match goal with
  | |- context [showSummary ?a ?b ?c ?d ?w0] =>
      destruct (showSummary_talks_only a b c d w0) as (ts & -> & Hws & Hes)
  end.
  unfold emit. cbn [fs trace] in *.
  eexists. split; [reflexivity|]. cbn [fs trace].
  split; [|split; [|split; [reflexivity|apply elem_of_app; right; left]]].
  - rewrite !execs_app, Hes, Het, !execs_app, Hea, Heb.
    cbn [execs List.filter is_exec].
    now rewrite !app_nil_r, <- !app_assoc.
  - rewrite !writes_app, Hws, Hwt, !writes_app, Hwa, Hwb.
    cbn [writes List.filter is_write].
    now rewrite !app_nil_r.
Qed.

Lemma CliTs_add_run_witness :
  ∃ w',
    CliTs.add "/project" failing_shell (λ _, Some ["button"; "card"])
      project_world = (Ret tt, w')
    ∧ execs (trace w')
      = execs (trace project_world)
        ++ [EExec ("npm install --save class-variance-authority "
                   +:+ "tailwind-merge clsx @radix-ui/react-slot") Inherit;
            EExec "npm install --save @radix-ui/react-slot" Inherit]
    ∧ writes (trace w')
      = writes (trace project_world)
        ++ [EWriteFile ["components"; "ui"; "button.tsx"]
              "export const Button = 1";
            EWriteFile ["components"; "ui"; "card.tsx"]
              "export const Card = 2"]
    ∧ fs w'
      = <[ ["components"; "ui"; "card.tsx"] := File "export const Card = 2" ]>
          (<[ ["components"; "ui"; "button.tsx"]
              := File "export const Button = 1" ]>
             (<[ ["components"; "ui"] := Dir ]>
                (<[ ["components"] := Dir ]> (fs project_world))))
    ∧ EOutro "Component installation completed successfully!" ∈ trace w'.
Proof.
  destruct (CliTs_add_run "/project" failing_shell
              (λ _, Some ["button"; "card"]) project_world
              ["button"; "card"] ["button"; "card"]
              (<[ ["components"; "ui"] := Dir ]>
                 (<[ ["components"] := Dir ]> (fs project_world))))
    as (w' & Hrun & He & Hw & Hfs & Hout).
  - vm_compute. reflexivity.
  - discriminate.
  - reflexivity.
  - discriminate.
  - vm_compute. reflexivity.
  - repeat constructor.
  - exists w'. split; [exact Hrun|]. split; [exact He|].
    split; [exact Hw|]. split; [|exact Hout].
    rewrite Hfs. vm_compute. reflexivity.
Defined.

Lemma DirectCli_install_block shell (message : string) (d : string)
    (ds : list string) (w : World) :
  let command := installCommand (detected (fs w)) (d :: ds) in
  (shell command (fs w)).1 = true →
  (if Nat.ltb 0 (length (d :: ds)) then
     emit (ESpinMessage message) >>
     DirectCli.installDependencies shell (d :: ds)
   else ret tt) w
  = (Ret tt,
     mkWorld (shell command (fs w)).2
       ((trace w ++ [ESpinMessage message]) ++ [EExec command Inherit])).
Proof.
  intros command Hok.
  change (Nat.ltb 0 (length (d :: ds))) with true. cbv iota.
  unfold bind at 1, emit at 1.
  rewrite DirectCli_installDependencies_run. cbn [fs trace].
  fold (detected (fs w)). fold command. now rewrite Hok.
Qed.

(** X13. A whole run of [add <names>] in the source with direct installation,
    when every command of the package manager succeeds: for valid,
    readable names the same one or two commands are run, the copy stage
    runs on the file system they left, and [add] returns after its
    closing message. *)
Theorem DirectCli_add_run (cwd : string) shell
    (answer : list string → option (list string)) (w : World)
    (avail components : list string) m1 :
  available (fs w) = Some avail →
  components ≠ [] →
  Forall (λ c, c ∈ avail) components →
  mkdir_from [] ["components"; "ui"] (fs w) = Some m1 →
  Forall (λ n, is_file m1 ["ui"; n +:+ ".tsx"] = true) components →
  (∀ command m, (shell command m).1 = true) →
  let button :=
    existsb (λ n, String.eqb (toLowerCase n) "button") components in
  let general :=
    ["class-variance-authority"; "tailwind-merge"; "clsx"]
    ++ (if button then ["@radix-ui/react-slot"] else []) in
  let first := installCommand (detected m1) general in
  let m2 := (shell first m1).2 in
  let second := installCommand (detected m2) ["@radix-ui/react-slot"] in
  let m3 := if button then (shell second m2).2 else m2 in
  ∃ w',
    DirectCli.add cwd shell components answer w = (Ret tt, w')
    ∧ execs (trace w')
      = execs (trace w)
        ++ EExec first Inherit
           :: (if button then [EExec second Inherit] else [])
    ∧ writes (trace w')
      = writes (trace w) ++ flat_map (copy_writes m3) components
    ∧ fs w' = foldl (copied m3) m3 components
    ∧ EOutro "Component installation completed successfully!" ∈ trace w'.
Proof.
  intros Hav Hne Hvalid Hmk Hread Hok button general first m2 second m3.
  unfold DirectCli.add.
  assert (Hlen : Nat.ltb 0 (length components) = true)
    by (destruct components; [congruence|reflexivity]).
  rewrite Hlen.
  unfold bind at 1, emit at 1. unfold bind at 1.
  unfold DirectCli.installComponents.
  unfold bind at 1, emit at 1. unfold try_catch at 1. unfold bind at 1.
  rewrite listAvailable_run. cbn [fs trace]. rewrite Hav.
  rewrite (filter_invalid_nil avail components Hvalid).
  change (Nat.ltb 0 (length (@nil string))) with false. cbv iota.
  unfold bind at 1. unfold ret at 1.
  unfold bind at 1. rewrite (mkdir_recursive_run _ _ m1) by exact Hmk.
  cbn [fs trace].
  unfold bind at 1, emit at 1. unfold bind at 1.
  change (collectDependencies cwd components ([], []))
    with (collectDependencies cwd components (aggregated false false)).
  rewrite (collect_run cwd components false false)
    by (discriminate || exact Hread).
  rewrite bool_decide_eq_false_2 by exact Hne.
  change (existsb isButton components) with button.
  cbn [orb negb aggregated fst snd fs trace].
  unfold bind at 1. fold general.
  assert (Hgen : ∃ d ds, general = d :: ds) by (eexists _, _; reflexivity).
  destruct Hgen as (d & ds & Hgen). rewrite Hgen.
  rewrite DirectCli_install_block by apply Hok.
  cbn [fs trace]. rewrite <- Hgen. fold first. fold m2.
  unfold bind at 1.
  assert (Hsecond :
    ∃ tb,
      (if Nat.ltb 0 (length (if button then ["@radix-ui/react-slot"] else []))
       then
         emit (ESpinMessage "Installing Radix UI dependencies") >>
         DirectCli.installDependencies shell
           (if button then ["@radix-ui/react-slot"] else [])
       else ret tt)
        (mkWorld m2
           (((((((trace w ++ [EIntro " omnizm - Add Components "])
                   ++ [ESpinStart "Preparing to install components"])
                  ++ [EMkdir componentDir])
                 ++ [ESpinMessage "Analyzing component dependencies"])
                ++ [ESpinMessage "Installing shared dependencies"])
               ++ [EExec first Inherit])))
      = (Ret tt,
         mkWorld m3
           ((((((((trace w ++ [EIntro " omnizm - Add Components "])
                   ++ [ESpinStart "Preparing to install components"])
                  ++ [EMkdir componentDir])
                 ++ [ESpinMessage "Analyzing component dependencies"])
                ++ [ESpinMessage "Installing shared dependencies"])
               ++ [EExec first Inherit])) ++ tb))
      ∧ execs tb = (if button then [EExec second Inherit] else [])
      ∧ writes tb = []).
  { unfold m3, second. destruct button.
    - rewrite DirectCli_install_block by apply Hok. cbn [fs trace].
      eexists. rewrite <- app_assoc. split; [reflexivity|].
      split; reflexivity.
    - exists []. rewrite app_nil_r. repeat split. }
  destruct Hsecond as (tb & -> & Heb & Hwb).
  unfold bind at 1, emit at 1. unfold bind at 1. cbn [fs trace].
  match goal with
  | |- context [copyComponentFiles cwd components ([], []) ?w0] =>
      destruct (copy_run cwd m3 components ([], []) w0 (agree_refl _))
        as (t & -> & Hwt & Het)
  end.
  unfold bind at 1, emit at 1.
  match goal with
  | |- context [showSummary ?a ?b ?c ?d ?w0] =>
      destruct (showSummary_talks_only a b c d w0) as (ts & -> & Hws & Hes)
  end.
  unfold emit. cbn [fs trace] in *.
  eexists. split; [reflexivity|]. cbn [fs trace].
  split; [|split; [|split; [reflexivity|apply elem_of_app; right; left]]].
  - rewrite !execs_app, Hes, Het, !execs_app, Heb.
    cbn [execs List.filter is_exec].
    now rewrite !app_nil_r, <- !app_assoc.
  - rewrite !writes_app, Hws, Hwt, !writes_app, Hwb.
    cbn [writes List.filter is_write].
    now rewrite !app_nil_r.
Qed.

Lemma DirectCli_add_run_witness :
  ∃ w',
    DirectCli.add "/project" succeeding_shell ["card"] (λ _, None)
      project_world = (Ret tt, w')
    ∧ execs (trace w')
      = execs (trace project_world)
        ++ [EExec ("npm install --save class-variance-authority "
                   +:+ "tailwind-merge clsx") Inherit]
    ∧ writes (trace w')
      = writes (trace project_world)
        ++ [EWriteFile ["components"; "ui"; "card.tsx"]
              "export const Card = 2"]
    ∧ fs w'
      = <[ ["components"; "ui"; "card.tsx"] := File "export const Card = 2" ]>
          (<[ ["components"; "ui"] := Dir ]>
             (<[ ["components"] := Dir ]> (fs project_world)))
    ∧ EOutro "Component installation completed successfully!" ∈ trace w'.
Proof.
  destruct (DirectCli_add_run "/project" succeeding_shell (λ _, None)
              project_world ["button"; "card"] ["card"]
              (<[ ["components"; "ui"] := Dir ]>
                 (<[ ["components"] := Dir ]> (fs project_world))))
    as (w' & Hrun & He & Hw & Hfs & Hout).
  - vm_compute. reflexivity.
  - discriminate.
  - repeat constructor.
  - vm_compute. reflexivity.
  - repeat constructor.
  - reflexivity.
  - exists w'. split; [exact Hrun|]. split; [exact He|].
    split; [exact Hw|]. split; [|exact Hout].
    rewrite Hfs. vm_compute. reflexivity.
Defined.

(* ===================================================================== *)
(** ** Running the copy stage again *)
(* ===================================================================== *)

Lemma agree_foldl (m0 : gmap (list string) node) (components : list string) :
  ∀ m, agree m0 m → agree m0 (foldl (copied m0) m components).
Proof.
  induction components as [|n rest IH]; intros m Hag; [exact Hag|].
  simpl. apply IH, agree_copied, Hag.
Qed.

Lemma foldl_copied_fixed (m0 m : gmap (list string) node)
    (components : list string) :
  (∀ n, n ∈ components → copy_ok m0 n = true →
        m !! targetPath n = Some (File (source_content m0 n))) →
  foldl (copied m0) m components = m.
Proof.
  induction components as [|n rest IH]; intros Hm; [reflexivity|].
  simpl.
  assert (Hn : copied m0 m n = m).
  { unfold copied. destruct (copy_ok m0 n) eqn:Hok; [|reflexivity].
    apply insert_id, Hm; [left|exact Hok]. }
  rewrite Hn. apply IH. intros n' Hn'. apply Hm. now right.
Qed.

(** X15. Running the copy stage a second time on the world the first run left
    records the same installed and failed names and leaves the file
    system as the first run left it. *)
Theorem copy_stage_idempotent (cwd : string) (selection : list string)
    (w : World) :
  let first := copyComponentFiles cwd selection ([], []) w in
  let second := copyComponentFiles cwd selection ([], []) first.2 in
  second.1 = first.1 ∧ fs second.2 = fs first.2.
Proof.
  intros first second. unfold second, first.
  destruct (copy_run cwd (fs w) selection ([], []) w (agree_refl _))
    as (t & -> & _ & _).
  cbn [fst snd].
  destruct (copy_run cwd (fs w) selection ([], [])
              (mkWorld (foldl (copied (fs w)) (fs w) selection) t))
    as (t' & -> & _ & _).
  { cbn [fs]. apply agree_foldl, agree_refl. }
  cbn [fst snd fs]. split; [reflexivity|].
  apply foldl_copied_fixed. intros n Hn Hok.
  now apply foldl_copied_target.
Qed.

(* ===================================================================== *)
(** ** The dependency sets hold no duplicate *)
(* ===================================================================== *)

Lemma set_add_NoDup (x : string) (s : list string) :
  NoDup s → NoDup (set_add x s).
Proof.
  intros Hs. unfold set_add. destruct (includes s x) eqn:E; [exact Hs|].
  apply NoDup_app. split; [exact Hs|]. split; [|apply NoDup_singleton].
  intros y Hy Hyx. apply list_elem_of_singleton in Hyx. subst y.
  rewrite (includes_true s x Hy) in E. discriminate E.
Qed.

Lemma fold_set_add_NoDup (deps s : list string) :
  NoDup s → NoDup (fold_left (λ s dep, set_add dep s) deps s).
Proof.
  revert s. induction deps as [|d deps IH]; intros s Hs; [exact Hs|].
  simpl. apply IH, set_add_NoDup, Hs.
Qed.

Lemma collect_NoDup (cwd : string) (components : list string) :
  ∀ sets (w : World) r w',
    NoDup sets.1 → NoDup sets.2 →
    collectDependencies cwd components sets w = (Ret r, w') →
    NoDup r.1 ∧ NoDup r.2.
Proof.
  induction components as [|n rest IH]; intros sets w r w' H1 H2 Hrun.
  - simpl in Hrun. injection Hrun as <- _. now split.
  - cbn [collectDependencies] in Hrun. unfold bind at 1 in Hrun.
    rewrite readComponent_run in Hrun.
    destruct (fs w !! sourcePath n) as [[c|]|]; try discriminate Hrun.
    apply IH in Hrun; [exact Hrun| |]; cbn [fst snd dependencies].
    + apply fold_set_add_NoDup, H1.
    + destruct (String.eqb (toLowerCase n) "button");
        [apply set_add_NoDup|]; exact H2.
Qed.

(** X16. Whatever the batch (repeated names, several buttons), each of the two
    dependency sets the first pass returns names every identifier once,
    so no package is named twice in one install command. *)
Theorem aggregated_sets_have_no_duplicate (cwd : string)
    (components : list string) (w : World)
    (general special : list string) (w' : World) :
  collectDependencies cwd components ([], []) w
  = (Ret (general, special), w') →
  NoDup general ∧ NoDup special.
Proof.
  intros Hrun.
  apply (collect_NoDup cwd components ([], []) w (general, special) w');
    [constructor|constructor|exact Hrun].
Qed.

Lemma aggregated_sets_have_no_duplicate_witness :
  NoDup ["class-variance-authority"; "tailwind-merge"; "clsx";
         "@radix-ui/react-slot"]
  ∧ NoDup ["@radix-ui/react-slot"].
Proof.
  apply (aggregated_sets_have_no_duplicate "/project"
           ["button"; "card"; "button"] project_world _ _ project_world).
  vm_compute. reflexivity.
Defined.

(* ===================================================================== *)
(** ** The configuration template and the class-name helper *)
(* ===================================================================== *)

(** X19. The text [init] writes determines the stack that was chosen. *)
Theorem getDefaultConfig_inj (stack1 stack2 : string) :
  getDefaultConfig stack1 = getDefaultConfig stack2 → stack1 = stack2.
Proof.
  unfold getDefaultConfig. intros H.
  do 3 apply String.app_inj in H. eapply append_inj_l, H.
Qed.

Lemma getDefaultConfig_inj_witness : "nextjs" = "nextjs".
Proof. apply (getDefaultConfig_inj "nextjs" "nextjs"). reflexivity. Defined.

(** X20. [cn] skips empty class names wherever they stand, so an absent
    [className] (passed as the empty string) adds no separator: the class
    list [[base; ""]] gives [base] itself. *)
Theorem cn_skips_empty (l1 l2 : list string) (base : string) :
  cn (l1 ++ "" :: l2) = cn (l1 ++ l2) ∧ cn [base; ""] = base.
Proof.
  split.
  - unfold cn. rewrite !List.filter_app. reflexivity.
  - unfold cn. simpl. destruct (String.eqb_spec base "") as [->|_]; reflexivity.
Qed.

Lemma join_app (sep : string) (l1 l2 : list string) :
  l1 ≠ [] → l2 ≠ [] →
  join sep (l1 ++ l2) = join sep l1 +:+ sep +:+ join sep l2.
Proof.
  intros H1 H2. induction l1 as [|x [|y r] IH]; [congruence| |].
  - destruct l2; [congruence|reflexivity].
  - change (x +:+ sep +:+ join sep ((y :: r) ++ l2)
            = (x +:+ sep +:+ join sep (y :: r)) +:+ sep +:+ join sep l2).
    rewrite IH by discriminate. now rewrite !append_assoc.
Qed.

Lemma cn_empty (classes : list string) :
  cn classes = "" ↔ List.filter (λ c, negb (String.eqb c "")) classes = [].
Proof.
  unfold cn. split; [|now intros ->].
  destruct (List.filter _ classes) as [|x r] eqn:E; [reflexivity|].
  assert (Hx : x ≠ "").
  { assert (Hin : In x (x :: r)) by now left.
    rewrite <- E in Hin. apply filter_In in Hin as [_ Hin].
    apply negb_true_iff, String.eqb_neq in Hin. exact Hin. }
  destruct x as [|a x]; [congruence|]. destruct r; discriminate.
Qed.

(** X21. [cn] of two class lists put together is the two results separated by
    one space, and just the other one when one of them is empty: no
    leading, trailing or doubled separator comes from composing. *)
Theorem cn_app (l1 l2 : list string) :
  cn (l1 ++ l2)
  = if String.eqb (cn l1) "" then cn l2
    else if String.eqb (cn l2) "" then cn l1
    else cn l1 +:+ " " +:+ cn l2.
Proof.
  destruct (String.eqb_spec (cn l1) "") as [E1|E1].
  - apply cn_empty in E1. unfold cn. now rewrite List.filter_app, E1.
  - destruct (String.eqb_spec (cn l2) "") as [E2|E2].
    + apply cn_empty in E2. unfold cn.
      now rewrite List.filter_app, E2, app_nil_r.
    + unfold cn. rewrite List.filter_app. apply join_app.
      * intros E. apply E1, cn_empty, E.
      * intros E. apply E2, cn_empty, E.
Qed.

(* ===================================================================== *)
(** ** A file in the way of the target directory *)
(* ===================================================================== *)

Lemma mkdir_componentDir_fails (m : gmap (list string) node) :
  mkdir_from [] ["components"; "ui"] m = None
  ↔ is_file m ["components"] = true ∨ is_file m ["components"; "ui"] = true.
Proof.
  unfold is_file. cbn [mkdir_from app].
  destruct (m !! ["components"]) as [[c|]|] eqn:E1.
  - split; [now left|reflexivity].
  - rewrite lookup_insert_ne by discriminate.
    destruct (m !! ["components"; "ui"]) as [[c|]|]; split;
      try discriminate; try (now right); try reflexivity;
      intros [H|H]; discriminate H.
  - rewrite lookup_insert_ne by discriminate.
    destruct (m !! ["components"; "ui"]) as [[c|]|]; split;
      try discriminate; try (now right); try reflexivity;
      intros [H|H]; discriminate H.
Qed.

Lemma mkdir_recursive_fails (p : path) (w : World) :
  mkdir_from [] p (fs w) = None →
  mkdir_recursive p w
  = (Throw "EEXIST: file already exists, mkdir",
     mkWorld (fs w) (trace w ++ [EMkdir p])).
Proof. intros H. unfold mkdir_recursive. now rewrite H. Qed.

(** X11. When [components] or [components/ui] is an existing file, [add] with
    a selection (chosen at the prompt, or given as valid names on the
    command line) ends with exit code 1 once [mkdir] has failed: the file
    system is untouched, no command is run and no file written. *)
Theorem add_target_directory_blocked (cwd : string) shell
    (answer : list string → option (list string)) (w : World)
    (avail selected : list string) :
  available (fs w) = Some avail →
  selected ≠ [] →
  Forall (λ c, c ∈ avail) selected →
  answer avail = Some selected →
  (is_file (fs w) ["components"] = true
   ∨ is_file (fs w) ["components"; "ui"] = true) →
  ∃ t1 t2,
    CliTs.add cwd shell answer w = (Exit 1%Z, mkWorld (fs w) (trace w ++ t1))
    ∧ DirectCli.add cwd shell selected answer w
      = (Exit 1%Z, mkWorld (fs w) (trace w ++ t2))
    ∧ execs (t1 ++ t2) = []
    ∧ writes (t1 ++ t2) = [].
Proof.
  intros Hav Hne Hvalid Hans Hblock.
  apply mkdir_componentDir_fails in Hblock.
  assert (Havne : avail ≠ []).
  { destruct selected as [|c cs]; [congruence|].
    apply Forall_cons in Hvalid as [Hc _]. intros ->.
    now apply elem_of_nil in Hc. }
  assert (H1 : ∃ t1, CliTs.add cwd shell answer w
                     = (Exit 1%Z, mkWorld (fs w) (trace w ++ t1))
                     ∧ execs t1 = [] ∧ writes t1 = []).
  { unfold CliTs.add.
    unfold bind at 1, emit at 1. unfold bind at 1, emit at 1.
    unfold try_catch at 1. unfold bind at 1. rewrite listAvailable_run.
    cbn [fs trace]. rewrite Hav.
    unfold bind at 1, emit at 1. unfold bind at 1.
    destruct avail as [|c0 cs]; [congruence|].
    change (Nat.eqb (length (c0 :: cs)) 0) with false. cbv iota.
    unfold ret at 1. rewrite Hans.
    unfold bind at 1. rewrite mkdir_recursive_fails by exact Hblock.
    unfold bind, emit, exit. cbn [fs trace].
    eexists. rewrite <- !app_assoc. split; [reflexivity|].
    split; reflexivity. }
  assert (H2 : ∃ t2, DirectCli.add cwd shell selected answer w
                     = (Exit 1%Z, mkWorld (fs w) (trace w ++ t2))
                     ∧ execs t2 = [] ∧ writes t2 = []).
  { unfold DirectCli.add.
    assert (Hlen : Nat.ltb 0 (length selected) = true)
      by (destruct selected; [congruence|reflexivity]).
    rewrite Hlen.
    unfold bind at 1, emit at 1. unfold bind at 1.
    unfold DirectCli.installComponents.
    unfold bind at 1, emit at 1. unfold try_catch at 1. unfold bind at 1.
    rewrite listAvailable_run. cbn [fs trace]. rewrite Hav.
    rewrite (filter_invalid_nil avail selected Hvalid).
    change (Nat.ltb 0 (length (@nil string))) with false. cbv iota.
    unfold bind at 1. unfold ret at 1.
    unfold bind at 1. rewrite mkdir_recursive_fails by exact Hblock.
    unfold bind, emit, exit. cbn [fs trace].
    eexists. rewrite <- !app_assoc. split; [reflexivity|].
    split; reflexivity. }
  destruct H1 as (t1 & H1 & E1 & W1). destruct H2 as (t2 & H2 & E2 & W2).
  exists t1, t2. rewrite execs_app, writes_app, E1, E2, W1, W2. auto.
Qed.

Lemma add_target_directory_blocked_witness :
  ∃ t1 t2,
    CliTs.add "/project" succeeding_shell (λ _, Some ["card"])
      components_file_world
    = (Exit 1%Z,
       mkWorld (fs components_file_world) (trace components_file_world ++ t1))
    ∧ DirectCli.add "/project" succeeding_shell ["card"] (λ _, Some ["card"])
        components_file_world
      = (Exit 1%Z,
         mkWorld (fs components_file_world)
           (trace components_file_world ++ t2))
    ∧ execs (t1 ++ t2) = []
    ∧ writes (t1 ++ t2) = [].
Proof.
  apply (add_target_directory_blocked "/project" succeeding_shell
           (λ _, Some ["card"]) components_file_world
           ["button"; "card"] ["card"]).
  - vm_compute. reflexivity.
  - discriminate.
  - repeat constructor.
  - reflexivity.
  - left. vm_compute. reflexivity.
Defined.

Lemma DirectCli_install_failure_is_fatal_witness :
  ∃ w',
    DirectCli.add "/project" failing_shell ["card"; "button"] (λ _, None)
      project_world = (Exit 1%Z, w')
    ∧ writes (trace w') = writes (trace project_world)
    ∧ length (execs (trace w')) = S (length (execs (trace project_world))).
Proof.
  apply (DirectCli_install_failure_is_fatal "/project" failing_shell
           ["card"; "button"] ["button"; "card"] (λ _, None) project_world
           (<[ ["components"; "ui"] := Dir ]>
              (<[ ["components"] := Dir ]> (fs project_world)))).
  - discriminate.
  - vm_compute. reflexivity.
  - repeat constructor.
  - vm_compute. reflexivity.
  - repeat constructor.
  - reflexivity.
Defined.

(* ===================================================================== *)
(** ** Decoding well-formed UTF-8 *)
(* ===================================================================== *)

Ltac byte_tests :=
  unfold byte_in in *;
  repeat match goal with
    | |- context [Nat.leb ?a ?b] => destruct (Nat.leb_spec a b); try lia
    | |- context [Nat.eqb ?a ?b] => destruct (Nat.eqb_spec a b); try lia
    end;
  try reflexivity.

Lemma utf8_start_ascii (b : ascii) :
  byte_in 0 127 b → utf8_start b = (String b EmptyString, Idle).
Proof. intros H. unfold utf8_start. cbv zeta. byte_tests. Qed.

Lemma utf8_start_lead (b : ascii) (needed lower upper : nat) :
  (byte_in 194 223 b ∧ needed = 1 ∧ lower = 128 ∧ upper = 191)
  ∨ (byte_in 224 224 b ∧ needed = 2 ∧ lower = 160 ∧ upper = 191)
  ∨ (byte_in 225 236 b ∧ needed = 2 ∧ lower = 128 ∧ upper = 191)
  ∨ (byte_in 237 237 b ∧ needed = 2 ∧ lower = 128 ∧ upper = 159)
  ∨ (byte_in 238 239 b ∧ needed = 2 ∧ lower = 128 ∧ upper = 191)
  ∨ (byte_in 240 240 b ∧ needed = 3 ∧ lower = 144 ∧ upper = 191)
  ∨ (byte_in 241 243 b ∧ needed = 3 ∧ lower = 128 ∧ upper = 191)
  ∨ (byte_in 244 244 b ∧ needed = 3 ∧ lower = 128 ∧ upper = 143) →
  utf8_start b
  = (EmptyString, Pending needed lower upper (String b EmptyString)).
Proof.
  intros H. unfold utf8_start. cbv zeta.
  repeat destruct H as [H|H]; destruct H as (H & -> & -> & ->); byte_tests.
Qed.

Lemma utf8_decode_idle (b : ascii) (rest : string) :
  utf8_decode_from Idle (String b rest)
  = (utf8_start b).1 +:+ utf8_decode_from (utf8_start b).2 rest.
Proof. reflexivity. Qed.

Lemma utf8_decode_continue (needed lower upper : nat) (seen : string)
    (b : ascii) (rest : string) :
  byte_in lower upper b →
  utf8_decode_from (Pending needed lower upper seen) (String b rest)
  = match needed with
    | S (S k) =>
        utf8_decode_from
          (Pending (S k) 128 191 (seen +:+ String b EmptyString)) rest
    | _ => (seen +:+ String b EmptyString) +:+ utf8_decode_from Idle rest
    end.
Proof.
  intros H. cbn [utf8_decode_from]. cbv zeta.
  unfold byte_in in H.
  destruct (Nat.leb_spec lower (nat_of_ascii b)); [|lia].
  destruct (Nat.leb_spec (nat_of_ascii b) upper); [|lia].
  reflexivity.
Qed.

(** Decoding leaves well-formed UTF-8 as it is. *)
Lemma utf8_decode_well_formed (bytes : string) :
  well_formed_utf8 bytes → utf8_decode bytes = bytes.
Proof.
  unfold utf8_decode.
  induction 1 as [ | b s Hb _ IH | b1 b2 s H1 H2 _ IH
                 | b1 b2 b3 s H1 H2 H3 _ IH | b1 b2 b3 s H1 H2 H3 _ IH
                 | b1 b2 b3 s H1 H2 H3 _ IH | b1 b2 b3 s H1 H2 H3 _ IH
                 | b1 b2 b3 b4 s H1 H2 H3 H4 _ IH
                 | b1 b2 b3 b4 s H1 H2 H3 H4 _ IH
                 | b1 b2 b3 b4 s H1 H2 H3 H4 _ IH ].
  - reflexivity.
  - rewrite utf8_decode_idle, (utf8_start_ascii b Hb). cbn [fst snd].
    now rewrite IH.
  - rewrite utf8_decode_idle, (utf8_start_lead b1 1 128 191) by tauto.
    cbn [fst snd]. rewrite utf8_decode_continue by exact H2.
    now rewrite IH.
  - rewrite utf8_decode_idle, (utf8_start_lead b1 2 160 191) by tauto.
    cbn [fst snd]. rewrite utf8_decode_continue by exact H2.
    rewrite utf8_decode_continue by exact H3. now rewrite IH.
  - rewrite utf8_decode_idle, (utf8_start_lead b1 2 128 191) by tauto.
    cbn [fst snd]. rewrite utf8_decode_continue by exact H2.
    rewrite utf8_decode_continue by exact H3. now rewrite IH.
  - rewrite utf8_decode_idle, (utf8_start_lead b1 2 128 159) by tauto.
    cbn [fst snd]. rewrite utf8_decode_continue by exact H2.
    rewrite utf8_decode_continue by exact H3. now rewrite IH.
  - rewrite utf8_decode_idle, (utf8_start_lead b1 2 128 191) by tauto.
    cbn [fst snd]. rewrite utf8_decode_continue by exact H2.
    rewrite utf8_decode_continue by exact H3. now rewrite IH.
  - rewrite utf8_decode_idle, (utf8_start_lead b1 3 144 191) by tauto.
    cbn [fst snd]. rewrite utf8_decode_continue by exact H2.
    rewrite utf8_decode_continue by exact H3.
    rewrite utf8_decode_continue by exact H4. now rewrite IH.
  - rewrite utf8_decode_idle, (utf8_start_lead b1 3 128 191) by tauto.
    cbn [fst snd]. rewrite utf8_decode_continue by exact H2.
    rewrite utf8_decode_continue by exact H3.
    rewrite utf8_decode_continue by exact H4. now rewrite IH.
  - rewrite utf8_decode_idle, (utf8_start_lead b1 3 128 143) by tauto.
    cbn [fst snd]. rewrite utf8_decode_continue by exact H2.
    rewrite utf8_decode_continue by exact H3.
    rewrite utf8_decode_continue by exact H4. now rewrite IH.
Qed.

(* ===================================================================== *)
(** ** The copy stage on files held as bytes *)
(* ===================================================================== *)

Lemma disk_readComponent_run (cwd componentName : string) (w : World) :
  Disk.readComponentFromUI cwd componentName w =
  match fs w !! sourcePath componentName with
  | Some (File bytes) =>
      (Ret (mkComponent
              [mkComponentFile (componentName +:+ ".tsx") (utf8_decode bytes)]
              (["class-variance-authority"; "tailwind-merge"; "clsx"]
               ++ (if isButton componentName
                   then ["@radix-ui/react-slot"] else []))), w)
  | _ =>
      (Throw ("Failed to read component " +:+ componentName +:+ ": "
              +:+ "Component file not found at "
              +:+ abs_path cwd (sourcePath componentName)), w)
  end.
Proof.
  unfold Disk.readComponentFromUI, try_catch, bind.
  rewrite exists_run. unfold is_file, sourcePath, isButton.
  destruct (fs w !! ["ui"; componentName +:+ ".tsx"]) as [[c|]|] eqn:E;
    simpl; try reflexivity.
  unfold Disk.readFile_utf8, bind, readFile. rewrite E.
  destruct (String.eqb (toLowerCase componentName) "button"); reflexivity.
Qed.

Lemma agree_disk_copied (m0 m : gmap (list string) node) (n : string) :
  agree m0 m → agree m0 (disk_copied m0 m n).
Proof.
  intros Hag. unfold disk_copied.
  destruct (copy_ok m0 n) eqn:Hok; [|exact Hag].
  destruct Hag as (Hsrc & Hdir & Htgt). repeat split.
  - intros n'. rewrite lookup_insert_ne; [apply Hsrc|discriminate].
  - unfold is_dir. rewrite lookup_insert_ne; [apply Hdir|discriminate].
  - intros n'. unfold is_dir.
    destruct (decide (targetPath n = targetPath n')) as [E|E].
    + rewrite <- E, lookup_insert_eq.
      unfold copy_ok in Hok. apply andb_prop in Hok as [_ Hok].
      apply negb_true_iff in Hok. unfold is_dir in Hok. now rewrite Hok.
    + rewrite lookup_insert_ne by exact E. apply Htgt.
Qed.

Lemma disk_copy_step (cwd n : string) (lists : list string * list string)
    (w : World) :
  ∃ t,
    try_catch
      (let* component := Disk.readComponentFromUI cwd n in
       for_of (files component)
         (λ file, writeFile (componentDir ++ [name file]) (content file)) >>
       ret (lists.1 ++ [n], lists.2))
      (λ message,
         emit (ELog (nl +:+ "Warning: Failed to add " +:+ n)) >>
         emit (ELog message) >>
         ret (lists.1, lists.2 ++ [n])) w
    = (Ret (lists.1 ++ (if copy_ok (fs w) n then [n] else []),
            lists.2 ++ (if copy_failed (fs w) n then [n] else [])),
       mkWorld (disk_copied (fs w) (fs w) n) t)
    ∧ writes t = writes (trace w) ++ disk_copy_writes (fs w) n.
Proof.
  unfold try_catch. unfold bind at 1. rewrite disk_readComponent_run.
  unfold disk_copied, copy_failed, copy_ok, disk_copy_writes, source_content,
    is_file, is_dir.
  destruct (fs w !! sourcePath n) as [[c|]|] eqn:Esrc.
  - cbn [files for_of name content]. unfold bind, writeFile, ret.
    change (componentDir ++ [n +:+ ".tsx"]) with (targetPath n).
    change (parent_is_dir (fs w) (targetPath n))
      with (match fs w !! componentDir with
            | Some Dir => true | _ => false end).
    cbn [fs trace].
    destruct (fs w !! componentDir) as [[cd|]|];
      destruct (fs w !! targetPath n) as [[ct|]|];
      cbn [andb negb emit fs trace]; rewrite ?app_nil_r;
      eexists; (split; [reflexivity|]);
      rewrite ?writes_app; simpl; rewrite ?app_nil_r; auto.
  - unfold bind, emit, ret. cbn [andb negb fs trace]. rewrite !app_nil_r.
    eexists; (split; [reflexivity|]);
      rewrite ?writes_app; simpl; rewrite ?app_nil_r; auto.
  - unfold bind, emit, ret. cbn [andb negb fs trace]. rewrite !app_nil_r.
    eexists; (split; [reflexivity|]);
      rewrite ?writes_app; simpl; rewrite ?app_nil_r; auto.
Qed.

Lemma disk_copy_run (cwd : string) (m0 : gmap (list string) node)
    (components : list string) :
  ∀ (lists : list string * list string) (w : World),
    agree m0 (fs w) →
    ∃ t,
      Disk.copyComponentFiles cwd components lists w
      = (Ret (lists.1 ++ List.filter (copy_ok m0) components,
              lists.2 ++ List.filter (copy_failed m0) components),
         mkWorld (foldl (disk_copied m0) (fs w) components) t)
      ∧ writes t
        = writes (trace w) ++ flat_map (disk_copy_writes m0) components.
Proof.
  induction components as [|n rest IH]; intros lists w Hag.
  - exists (trace w). simpl. rewrite !app_nil_r. destruct lists, w.
    repeat split.
  - cbn [Disk.copyComponentFiles]. unfold bind at 1.
    destruct (disk_copy_step cwd n lists w) as (t1 & -> & Hw1).
    assert (Hok : copy_ok (fs w) n = copy_ok m0 n)
      by (apply agree_copy_ok, Hag).
    assert (Hcopied : disk_copied (fs w) (fs w) n = disk_copied m0 (fs w) n).
    { unfold disk_copied, source_content. rewrite Hok.
      destruct Hag as (Hsrc & _). now rewrite Hsrc. }
    assert (Hwr : disk_copy_writes (fs w) n = disk_copy_writes m0 n).
    { unfold disk_copy_writes. destruct Hag as (Hsrc & _). now rewrite Hsrc. }
    rewrite Hcopied.
    destruct (IH (lists.1 ++ (if copy_ok (fs w) n then [n] else []),
                  lists.2 ++ (if copy_failed (fs w) n then [n] else []))
                 (mkWorld (disk_copied m0 (fs w) n) t1))
      as (t & -> & Hw).
    { cbn [fs]. apply agree_disk_copied, Hag. }
    exists t. cbn [fs trace fst snd foldl List.filter flat_map] in *.
    unfold copy_failed in *. rewrite Hok.
    split.
    + destruct (copy_ok m0 n); cbn [negb];
        rewrite <- ?app_assoc, ?app_nil_r; reflexivity.
    + now rewrite Hw, Hw1, Hwr, <- app_assoc.
Qed.

Lemma foldl_disk_copied_keep (m0 : gmap (list string) node)
    (components : list string) (n : string) :
  ∀ m, m !! targetPath n = Some (File (utf8_decode (source_content m0 n))) →
       foldl (disk_copied m0) m components !! targetPath n
       = Some (File (utf8_decode (source_content m0 n))).
Proof.
  induction components as [|a rest IH]; intros m Hm; [exact Hm|].
  simpl. apply IH. unfold disk_copied. destruct (copy_ok m0 a); [|exact Hm].
  destruct (decide (targetPath a = targetPath n)) as [E|E].
  - rewrite <- E, lookup_insert_eq. apply targetPath_inj in E. now subst.
  - now rewrite lookup_insert_ne.
Qed.

Lemma foldl_disk_copied_target (m0 : gmap (list string) node)
    (components : list string) (n : string) :
  n ∈ components → copy_ok m0 n = true →
  ∀ m, foldl (disk_copied m0) m components !! targetPath n
       = Some (File (utf8_decode (source_content m0 n))).
Proof.
  intros Hin Hok. induction components as [|a rest IH]; intros m.
  - apply elem_of_nil in Hin as [].
  - simpl. apply elem_of_cons in Hin as [->|Hin].
    + apply foldl_disk_copied_keep. unfold disk_copied. rewrite Hok.
      apply lookup_insert_eq.
    + apply IH, Hin.
Qed.

(** C10 as stated fails. The source [ui/card.tsx] holds the two bytes
    FF 41. The copy stage records [card] as installed, and the file it
    has written, [components/ui/card.tsx], holds the four bytes
    EF BF BD 41: the byte FF was decoded to U+FFFD when the source was
    read as text, so the copy is not byte-for-byte the source. *)
Lemma copy_stage_transforms_ill_formed_bytes :
  fs ill_formed_world !! ["ui"; "card.tsx"]
  = Some (File (String (ascii_of_nat 255) (String (ascii_of_nat 65) "")))
  ∧ ∃ w',
      Disk.copyComponentFiles "/project" ["card"] ([], []) ill_formed_world
      = (Ret (["card"], []), w')
      ∧ fs w' !! ["components"; "ui"; "card.tsx"]
        = Some (File (String (ascii_of_nat 239)
                        (String (ascii_of_nat 191)
                           (String (ascii_of_nat 189)
                              (String (ascii_of_nat 65) "")))))
      ∧ fs w' !! ["components"; "ui"; "card.tsx"]
        ≠ fs ill_formed_world !! ["ui"; "card.tsx"].
Proof.
  split; [vm_compute; reflexivity|].
  eexists. split; [vm_compute; reflexivity|].
  split; [vm_compute; reflexivity|]. vm_compute. discriminate.
Qed.

(** C10, as the code has it. For every component the copy stage records
    as installed, the source [ui/<name>.tsx] is a file, and when the
    stage is over the file [components/ui/<name>.tsx] holds the UTF-8
    encoding of the text the source bytes decode to, which is also what
    [writeFile] was called with. That is the source byte for byte
    whenever the source is well-formed UTF-8; otherwise every ill-formed
    sequence has become U+FFFD. A file already at the target never
    prevents the copy: it is replaced. *)
Theorem copy_stage_bytes (cwd : string) (selection : list string)
    (w : World) :
  ∃ installed failed w',
    Disk.copyComponentFiles cwd selection ([], []) w
    = (Ret (installed, failed), w')
    ∧ (∀ n, n ∈ installed →
         ∃ bytes,
           fs w !! ["ui"; n +:+ ".tsx"] = Some (File bytes)
           ∧ fs w' !! ["components"; "ui"; n +:+ ".tsx"]
             = Some (File (utf8_decode bytes))
           ∧ EWriteFile ["components"; "ui"; n +:+ ".tsx"] (utf8_decode bytes)
               ∈ trace w'
           ∧ (well_formed_utf8 bytes →
              fs w' !! ["components"; "ui"; n +:+ ".tsx"]
              = fs w !! ["ui"; n +:+ ".tsx"]))
    ∧ (∀ n bytes old,
         n ∈ selection →
         fs w !! ["ui"; n +:+ ".tsx"] = Some (File bytes) →
         fs w !! ["components"; "ui"] = Some Dir →
         fs w !! ["components"; "ui"; n +:+ ".tsx"] = Some (File old) →
         n ∈ installed
         ∧ fs w' !! ["components"; "ui"; n +:+ ".tsx"]
           = Some (File (utf8_decode bytes))).
Proof.
  destruct (disk_copy_run cwd (fs w) selection ([], []) w (agree_refl _))
    as (t & Hrun & Hw).
  eexists _, _, _. split; [exact Hrun|]. cbn [fs trace fst snd app].
  assert (Hinst : ∀ n, n ∈ selection → copy_ok (fs w) n = true →
            ∃ bytes, fs w !! sourcePath n = Some (File bytes)
                 ∧ foldl (disk_copied (fs w)) (fs w) selection !! targetPath n
                   = Some (File (utf8_decode bytes))
                 ∧ EWriteFile (targetPath n) (utf8_decode bytes) ∈ t).
  { intros n Hn Hok.
    pose proof (foldl_disk_copied_target (fs w) selection n Hn Hok (fs w))
      as Hfs.
    assert (Hsrc : is_file (fs w) (sourcePath n) = true).
    { unfold copy_ok in Hok. now apply andb_prop in Hok as [Hok _];
        apply andb_prop in Hok as [Hok _]. }
    unfold source_content in Hfs. unfold is_file in Hsrc.
    destruct (fs w !! sourcePath n) as [[c|]|] eqn:E; try discriminate Hsrc.
    exists c. split; [reflexivity|]. split; [exact Hfs|].
    assert (Hin : EWriteFile (targetPath n) (utf8_decode c) ∈ writes t).
    { rewrite Hw. apply elem_of_app. right.
      apply list_elem_of_In, in_flat_map. exists n.
      split; [now apply list_elem_of_In|].
      unfold disk_copy_writes. rewrite E. now left. }
    unfold writes in Hin. apply list_elem_of_In, filter_In in Hin as [Hin _].
    now apply list_elem_of_In. }
  split.
  - intros n Hn. apply elem_of_filter_bool in Hn as [Hn Hok].
    destruct (Hinst n Hn Hok) as (bytes & Hsrc & Hfs & Hev).
    exists bytes. unfold sourcePath, targetPath in *.
    split; [exact Hsrc|]. split; [exact Hfs|]. split; [exact Hev|].
    intros Hwf. rewrite Hfs, Hsrc. now rewrite (utf8_decode_well_formed _ Hwf).
  - intros n c old Hn Hsrc Hdir Htgt.
    assert (Hok : copy_ok (fs w) n = true).
    { unfold copy_ok, is_file, is_dir, sourcePath, targetPath, componentDir.
      now rewrite Hsrc, Hdir, Htgt. }
    split; [now apply elem_of_filter_bool|].
    destruct (Hinst n Hn Hok) as (c' & Hc' & Hfs & _).
    unfold sourcePath in Hc'. rewrite Hsrc in Hc'. injection Hc' as <-.
    exact Hfs.
Qed.

(** On the project where [components/ui/button.tsx] already exists with
    other content: the sources are plain ASCII, hence well-formed, and
    the button is installed with the bytes of its source. *)
Example copy_stage_bytes_overwrites :
  ∃ w',
    Disk.copyComponentFiles "/project" ["button"; "card"] ([], [])
      installed_world
    = (Ret (["button"], ["card"]), w')
    ∧ fs w' !! ["components"; "ui"; "button.tsx"]
      = fs installed_world !! ["ui"; "button.tsx"].
Proof. eexists. split; vm_compute; reflexivity. Qed.

Ltac in_range := unfold byte_in; split; apply Nat.leb_le; reflexivity.

(** The bytes of the text A, U+00E9, U+20AC and U+1F600, one sequence
    of each length, are well-formed and decode to themselves. *)
Example well_formed_sample :
  let bytes :=
    string_of_list_ascii
      (map ascii_of_nat [65; 195; 169; 226; 130; 172; 240; 159; 152; 128]) in
  well_formed_utf8 bytes ∧ utf8_decode bytes = bytes.
Proof.
  split; [|reflexivity]. cbn [string_of_list_ascii map].
  apply wf_ascii; [in_range|].
  apply wf_two; [in_range..|].
  apply wf_three_E1_EC; [in_range..|].
  apply wf_four_F0; [in_range..|].
  apply wf_end.
Qed.
